(** * Directory-table extraction of [document_converter_fixed.py]

    A shallow embedding of [is_person_name], [is_contact_table] and
    [extract_contact_table], with the string methods and the regular
    expressions they call, followed by the properties of the extractor.

    Python [str] values are embedded as [string] and read as 7-bit text:
    [lower], [isspace], [isupper] and the regex classes follow CPython on the
    code points below 128, and a byte above 127 is taken as neither a letter,
    a digit nor white space.  Operations that can raise ([list] indexing) live
    in the [result] monad, so that "returns normally" is a statement about the
    embedded function.

    The second half embeds their caller, [extract_fixed_document_structure],
    on the document that [Document(file_path)] returns (its paragraphs, with
    the names of their styles, and the cell texts of its tables), and the
    counting loop of [convert_with_fixed_extraction]. *)

From Stdlib Require Import Bool Arith ZArith Lia List Ascii String.
From Stdlib Require Import DecimalString.
Import ListNotations.

Local Open Scope string_scope.
Local Open Scope list_scope.
Local Open Scope nat_scope.

(* ================================================================= *)
(** ** Exceptions *)

Inductive exn : Type :=
| IndexError.

Inductive result (A : Type) : Type :=
| Ok (a : A)
| Raise (e : exn).

Arguments Ok {A} a.
Arguments Raise {A} e.

Definition bind {A B : Type} (m : result A) (f : A -> result B) : result B :=
  match m with
  | Ok a => f a
  | Raise e => Raise e
  end.

Notation "x <- m ;; k" := (bind m (fun x => k))
  (at level 61, m at next level, right associativity).
Notation "' p <- m ;; k" := (bind m (fun x => let 'p := x in k))
  (at level 61, p pattern, m at next level, right associativity).

(** [l[i]] for a non-negative [i]: raises [IndexError] out of range. *)
Definition getitem {A : Type} (l : list A) (i : nat) : result A :=
  match nth_error l i with
  | Some x => Ok x
  | None => Raise IndexError
  end.

(* ================================================================= *)
(** ** Characters and [str] methods *)

Module Str.

Definition between (lo hi : nat) (c : ascii) : bool :=
  (lo <=? nat_of_ascii c) && (nat_of_ascii c <=? hi).

Definition is_upper (c : ascii) : bool := between 65 90 c.
Definition is_lower (c : ascii) : bool := between 97 122 c.
Definition is_alpha (c : ascii) : bool := is_upper c || is_lower c.
Definition is_digit (c : ascii) : bool := between 48 57 c.

(** [str.isspace] on one character: TAB..CR, FS..US and the blank. *)
Definition isspace (c : ascii) : bool :=
  between 9 13 c || between 28 31 c || (nat_of_ascii c =? 32).

(** [\w] of the [re] module. *)
Definition is_word (c : ascii) : bool :=
  is_alpha c || is_digit c || (nat_of_ascii c =? 95).

Definition lower_char (c : ascii) : ascii :=
  if is_upper c then ascii_of_nat (nat_of_ascii c + 32) else c.

Fixpoint lower (s : string) : string :=
  match s with
  | EmptyString => EmptyString
  | String c s' => String (lower_char c) (lower s')
  end.

Definition is_empty (s : string) : bool :=
  match s with
  | EmptyString => true
  | String _ _ => false
  end.

(** [any(p(c) for c in s)] and [all(p(c) for c in s)]. *)
Fixpoint any_char (p : ascii -> bool) (s : string) : bool :=
  match s with
  | EmptyString => false
  | String c s' => p c || any_char p s'
  end.

Fixpoint all_char (p : ascii -> bool) (s : string) : bool :=
  match s with
  | EmptyString => true
  | String c s' => p c && all_char p s'
  end.

(** [needle in hay]. *)
Fixpoint contains (needle hay : string) : bool :=
  prefix needle hay ||
  match hay with
  | EmptyString => false
  | String _ hay' => contains needle hay'
  end.

(** [any(w in text for w in words)]. *)
Definition contains_any (words : list string) (text : string) : bool :=
  existsb (fun w => contains w text) words.

Fixpoint lstrip (s : string) : string :=
  match s with
  | EmptyString => EmptyString
  | String c s' => if isspace c then lstrip s' else s
  end.

Fixpoint rstrip (s : string) : string :=
  match s with
  | EmptyString => EmptyString
  | String c s' =>
      let r := rstrip s' in
      if is_empty r && isspace c then EmptyString else String c r
  end.

(** [s.strip()]. *)
Definition strip (s : string) : string := rstrip (lstrip s).

(** [s.split()]: [tok] is the word being read. *)
Fixpoint split_from (tok : string) (s : string) : list string :=
  match s with
  | EmptyString => if is_empty tok then [] else [tok]
  | String c s' =>
      if isspace c
      then (if is_empty tok then split_from EmptyString s'
            else tok :: split_from EmptyString s')
      else split_from (append tok (String c EmptyString)) s'
  end.

Definition split (s : string) : list string := split_from EmptyString s.

(** [sep.join(l)]. *)
Definition join (sep : string) (l : list string) : string := concat sep l.

(** [str(n)] for a non-negative integer. *)
Definition of_nat (n : nat) : string := NilZero.string_of_uint (Nat.to_uint n).

End Str.

(* ================================================================= *)
(** ** The fragment of [re] the converter uses

    Every pattern of the source is a sequence of assertions and of greedy
    quantified single-character classes, so a pattern is a list of atoms and
    the matcher is the backtracking one of [re]: a quantifier first takes as
    many characters as it can and gives them back one at a time. *)

Module Re.

Inductive atom : Type :=
| Rep (cls : ascii -> bool) (lo : nat) (hi : option nat)
    (** [cls{lo,hi}], greedy; [hi = None] is unbounded *)
| WordBoundary  (** [\b] *)
| Bol           (** [^] *)
| Eol.          (** [$]: the end, or just before a final newline *)

Definition pattern := list atom.

Definition one (cls : ascii -> bool) : atom := Rep cls 1 (Some 1).
Definition opt (cls : ascii -> bool) : atom := Rep cls 0 (Some 1).
Definition plus (cls : ascii -> bool) : atom := Rep cls 1 None.
Definition times (n : nat) (cls : ascii -> bool) : atom := Rep cls n (Some n).
Definition lit (c : ascii) : ascii -> bool := Ascii.eqb c.

Definition word_opt (c : option ascii) : bool :=
  match c with
  | Some c => Str.is_word c
  | None => false
  end.

Definition head (s : string) : option ascii :=
  match s with
  | EmptyString => None
  | String c _ => Some c
  end.

Definition at_boundary (prev : option ascii) (s : string) : bool :=
  xorb (word_opt prev) (word_opt (head s)).

Definition at_eol (s : string) : bool :=
  match s with
  | EmptyString => true
  | String c EmptyString => Ascii.eqb c "010"%char
  | _ => false
  end.

Definition at_bol (prev : option ascii) : bool :=
  match prev with
  | None => true
  | Some _ => false
  end.

(** [rep cls k lo hi prev s]: match [cls{lo,hi}] at [s] and then the rest of
    the pattern, [k]; the result is the number of characters consumed. *)
Fixpoint rep (cls : ascii -> bool) (k : option ascii -> string -> option nat)
    (lo : nat) (hi : option nat) (prev : option ascii) (s : string)
    : option nat :=
  let stop := match lo with
              | 0 => k prev s
              | S _ => None
              end in
  match hi with
  | Some 0 => stop
  | _ =>
      match s with
      | EmptyString => stop
      | String c s' =>
          if cls c then
            match rep cls k (pred lo) (option_map pred hi) (Some c) s' with
            | Some n => Some (S n)
            | None => stop
            end
          else stop
      end
  end.

(** Match the pattern at the start of [s], [prev] being the character before
    it: the length of the match the backtracking search finds first. *)
Fixpoint match_here (p : pattern) (prev : option ascii) (s : string)
    : option nat :=
  match p with
  | [] => Some 0
  | Rep cls lo hi :: p' => rep cls (match_here p') lo hi prev s
  | WordBoundary :: p' =>
      if at_boundary prev s then match_here p' prev s else None
  | Bol :: p' => if at_bol prev then match_here p' prev s else None
  | Eol :: p' => if at_eol s then match_here p' prev s else None
  end.

(** [re.match(p, s)] as a truth value. *)
Definition re_match (p : pattern) (s : string) : bool :=
  match match_here p None s with
  | Some _ => true
  | None => false
  end.

(** The scan of [re.findall]: [skip] characters still belong to the match
    found last. *)
Fixpoint findall_from (p : pattern) (prev : option ascii) (skip : nat)
    (s : string) : list string :=
  match s with
  | EmptyString =>
      match skip, match_here p prev EmptyString with
      | 0, Some _ => [EmptyString]
      | _, _ => []
      end
  | String c s' =>
      match skip with
      | S j => findall_from p (Some c) j s'
      | 0 =>
          match match_here p prev s with
          | Some n => substring 0 n s :: findall_from p (Some c) (pred n) s'
          | None => findall_from p (Some c) 0 s'
          end
      end
  end.

(** [re.findall(p, s)] for a pattern without groups. *)
Definition findall (p : pattern) (s : string) : list string :=
  findall_from p None 0 s.

End Re.

(* ================================================================= *)
(** ** Patterns of the source *)

Definition one_of (chars : string) (c : ascii) : bool :=
  Str.any_char (Ascii.eqb c) chars.

Definition alnum (c : ascii) : bool := Str.is_alpha c || Str.is_digit c.

(** [[-.\s]] *)
Definition sep_cls (c : ascii) : bool := one_of "-." c || Str.isspace c.

(** [^[A-Za-z\s\.\-\']+$] *)
Definition name_cls (c : ascii) : bool :=
  Str.is_alpha c || Str.isspace c || one_of ".-'" c.

Definition name_pattern : Re.pattern :=
  [Re.Bol; Re.plus name_cls; Re.Eol].

(** [\b[A-Za-z0-9._%+-]+@[A-Za-z0-9.-]+\.[A-Z|a-z]{2,}\b] *)
Definition email_pattern : Re.pattern :=
  [Re.WordBoundary;
   Re.plus (fun c => alnum c || one_of "._%+-" c);
   Re.one (Re.lit "@");
   Re.plus (fun c => alnum c || one_of ".-" c);
   Re.one (Re.lit ".");
   Re.Rep (fun c => Str.is_upper c || one_of "|" c || Str.is_lower c) 2 None;
   Re.WordBoundary].

Definition phone_patterns : list Re.pattern :=
  [ (* \b\d{3}[-.\s]?\d{3}[-.\s]?\d{4}\b *)
    [Re.WordBoundary; Re.times 3 Str.is_digit; Re.opt sep_cls;
     Re.times 3 Str.is_digit; Re.opt sep_cls; Re.times 4 Str.is_digit;
     Re.WordBoundary];
    (* \(\d{3}\)\s?\d{3}[-.\s]?\d{4} *)
    [Re.one (Re.lit "("); Re.times 3 Str.is_digit; Re.one (Re.lit ")");
     Re.opt Str.isspace; Re.times 3 Str.is_digit; Re.opt sep_cls;
     Re.times 4 Str.is_digit];
    (* \b1[-.\s]?\d{3}[-.\s]?\d{3}[-.\s]?\d{4}\b *)
    [Re.WordBoundary; Re.one (Re.lit "1"); Re.opt sep_cls;
     Re.times 3 Str.is_digit; Re.opt sep_cls; Re.times 3 Str.is_digit;
     Re.opt sep_cls; Re.times 4 Str.is_digit; Re.WordBoundary];
    (* \+\d{1,3}[-.\s]?\d{3}[-.\s]?\d{3}[-.\s]?\d{4} *)
    [Re.one (Re.lit "+"); Re.Rep Str.is_digit 1 (Some 3); Re.opt sep_cls;
     Re.times 3 Str.is_digit; Re.opt sep_cls; Re.times 3 Str.is_digit;
     Re.opt sep_cls; Re.times 4 Str.is_digit] ].

(* ================================================================= *)
(** ** [is_person_name] *)

Definition non_person_words : list string :=
  ["return"; "normal"; "operations"; "activate"; "section"; "page"; "step";
   "procedure"; "process"; "system"; "tool"; "application"; "recovery";
   "business"; "continuity"; "plan"; "when"; "if"; "the"; "this"; "that";
   "contact"; "engage"; "determine"; "communicate"; "situation"; "team";
   "activation"; "equipment"; "outage"; "building"; "location"; "personnel"].

Definition word_ok (word : string) : bool :=
  negb ((length word <? 2) || (20 <? length word)).

Definition is_person_name (text : string) : bool :=
  if Str.is_empty text || (length text <? 2) then false
  else
    let text_lower := Str.lower text in
    if Str.contains_any non_person_words text_lower then false
    else if 50 <? length text then false
    else if negb (Re.re_match name_pattern text) then false
    else if negb (Str.any_char Str.is_upper text) then false
    else
      let words := Str.split text in
      if (List.length words <? 2) || (4 <? List.length words) then false
      else forallb word_ok words.

(* ================================================================= *)
(** ** [is_contact_table] *)

Definition table := list (list string).

Definition is_nil {A : Type} (l : list A) : bool :=
  match l with
  | [] => true
  | _ :: _ => false
  end.

Definition header_keywords : list string :=
  ["name"; "title"; "phone"; "mobile"; "email"; "contact"; "role";
   "team member"].

(** The loop over [table_data[1:6]]. *)
Fixpoint count_persons (rows : table) (person_count : nat) : result nat :=
  match rows with
  | [] => Ok person_count
  | row :: rest =>
      if negb (is_nil row) && (0 <? List.length row) then
        cell <- getitem row 0 ;;
        let first_cell := Str.strip cell in
        if is_person_name first_cell
        then count_persons rest (person_count + 1)
        else count_persons rest person_count
      else count_persons rest person_count
  end.

Definition is_contact_table (table_data : table) : result bool :=
  if is_nil table_data || (List.length table_data <? 2) then Ok false
  else
    let header_indicators :=
      map (fun row =>
             let row_text := Str.lower (Str.join " " row) in
             Str.contains_any header_keywords row_text)
          (firstn 3 table_data) in
    if negb (existsb (fun b => b) header_indicators) then Ok false
    else
      person_count <- count_persons (firstn 5 (skipn 1 table_data)) 0 ;;
      Ok (2 <=? person_count).

(* ================================================================= *)
(** ** [extract_contact_table] *)

(** The [contact] dictionary built for a row. *)
Record contact : Type := mkContact {
  type : string;
  name : string;
  title : string;
  phone : list string;
  mobile : list string;
  email : list string;
  location : string;
  description : string;
  raw_data : list string
}.

Definition new_contact (row : list string) : contact :=
  mkContact "team_member" "" "" [] [] [] "" "" row.

Definition set_name (c : contact) (v : string) : contact :=
  mkContact (type c) v (title c) (phone c) (mobile c) (email c)
            (location c) (description c) (raw_data c).
Definition set_title (c : contact) (v : string) : contact :=
  mkContact (type c) (name c) v (phone c) (mobile c) (email c)
            (location c) (description c) (raw_data c).
Definition set_phone (c : contact) (v : list string) : contact :=
  mkContact (type c) (name c) (title c) v (mobile c) (email c)
            (location c) (description c) (raw_data c).
Definition set_mobile (c : contact) (v : list string) : contact :=
  mkContact (type c) (name c) (title c) (phone c) v (email c)
            (location c) (description c) (raw_data c).
Definition set_email (c : contact) (v : list string) : contact :=
  mkContact (type c) (name c) (title c) (phone c) (mobile c) v
            (location c) (description c) (raw_data c).
Definition set_location (c : contact) (v : string) : contact :=
  mkContact (type c) (name c) (title c) (phone c) (mobile c) (email c)
            v (description c) (raw_data c).
Definition set_description (c : contact) (v : string) : contact :=
  mkContact (type c) (name c) (title c) (phone c) (mobile c) (email c)
            (location c) v (raw_data c).

(** [contact[k].extend(l)] and [contact[k].append(x)]. *)
Definition extend_phone (c : contact) (l : list string) : contact :=
  set_phone c (phone c ++ l).
Definition extend_mobile (c : contact) (l : list string) : contact :=
  set_mobile c (mobile c ++ l).
Definition extend_email (c : contact) (l : list string) : contact :=
  set_email c (email c ++ l).

Definition extract_header_keywords : list string :=
  ["name"; "title"; "phone"; "mobile"; "email"; "contact"].

Definition place_words : list string :=
  ["office"; "building"; "floor"; "room"].

(** The loop that looks for the header row; [i] is the index of the first
    row of [rows].  The result is [(headers, header_row_index)]. *)
Fixpoint find_header_row (i : Z) (rows : table) : list string * Z :=
  match rows with
  | [] => ([], (-1)%Z)
  | row :: rest =>
      let row_text := Str.lower (Str.join " " row) in
      if Str.contains_any extract_header_keywords row_text
      then (map (fun col => Str.strip (Str.lower col)) row, i)
      else find_header_row (i + 1)%Z rest
  end.

(** [["name", "title", "contact_info"]] extended with [f"field_{i}"] for
    [i] in [range(3, n)]. *)
Definition positional_headers (n : nat) : list string :=
  ["name"; "title"; "contact_info"]
  ++ map (fun i => append "field_" (Str.of_nat i)) (seq 3 (n - 3)).

(** Lines 99-119: the headers and the first data row. *)
Definition locate_headers (table_data : table) : result (list string * nat) :=
  let '(headers, header_row_index) := find_header_row 0%Z table_data in
  headers <-
    (if (header_row_index =? -1)%Z then
       row0 <- getitem table_data 0 ;;
       if 3 <=? List.length row0
       then Ok (positional_headers (List.length row0))
       else Ok headers
     else Ok headers) ;;
  let start_row :=
    if (0 <=? header_row_index)%Z then (header_row_index + 1)%Z else 0%Z in
  Ok (headers, Z.to_nat start_row).

(** The chain of [if]/[elif] that stores one cell (lines 170-205). *)
Definition map_field (row_len i : nat) (header cell : string)
    (emails phones : list string) (c : contact) : contact :=
  if (i =? 0) || Str.contains "name" header then set_name c cell
  else if (i =? 1) || Str.contains "title" header
          || Str.contains "role" header then set_title c cell
  else if Str.contains "phone" header
          && negb (Str.contains "mobile" header) then
    if negb (is_nil phones) then extend_phone c phones
    else if is_nil emails && (5 <? length cell) then extend_phone c [cell]
    else c
  else if Str.contains "mobile" header || Str.contains "cell" header then
    if negb (is_nil phones) then extend_mobile c phones
    else if is_nil emails && (5 <? length cell) then extend_mobile c [cell]
    else c
  else if Str.contains "location" header || Str.contains "site" header then
    set_location c cell
  else if Str.contains "description" header
          || Str.contains "notes" header then
    set_description c cell
  else if Str.contains "email" header then
    if is_nil emails then extend_email c [cell] else c
  else
    if negb (is_nil emails) then extend_email c emails
    else if negb (is_nil phones) then
      if Str.contains "mobile" (Str.lower cell)
         || (0 <? List.length (phone c))
      then extend_mobile c phones
      else extend_phone c phones
    else if (Z.of_nat i =? Z.of_nat row_len - 1)%Z && (10 <? length cell) then
      if Str.is_empty (location c)
         && Str.contains_any place_words (Str.lower cell)
      then set_location c cell
      else if Str.is_empty (description c) then set_description c cell
      else c
    else c.

(** Lines 159-168: the matches of the four phone patterns, pattern by
    pattern. *)
Definition find_phones (cell : string) : list string :=
  flat_map (fun pattern => Re.findall pattern cell) phone_patterns.

(** Lines 152-205, for a stripped, non-empty [cell] under [header]. *)
Definition process_cell (row_len i : nat) (header cell : string)
    (c : contact) : contact :=
  let emails := Re.findall email_pattern cell in
  let c := if negb (is_nil emails) then extend_email c emails else c in
  let phones := find_phones cell in
  map_field row_len i header cell emails phones c.

(** [for i, cell in enumerate(row)]: [cells] is what is left of the row and
    [i] the index of its first cell. *)
Fixpoint map_row (headers : list string) (row_len i : nat)
    (cells : list string) (c : contact) : result contact :=
  match cells with
  | [] => Ok c
  | cell :: rest =>
      if List.length headers <=? i then Ok c
      else
        let cell := Str.strip cell in
        if Str.is_empty cell then map_row headers row_len (S i) rest c
        else
          header <-
            (if i <? List.length headers then getitem headers i
             else Ok (append "field_" (Str.of_nat i))) ;;
          map_row headers row_len (S i) rest
                  (process_cell row_len i header cell c)
  end.

(** [for row in table_data[start_row:]], with the list [contacts] so far. *)
Fixpoint extract_rows (headers : list string) (rows : table)
    (contacts : list contact) : result (list contact) :=
  match rows with
  | [] => Ok contacts
  | row :: rest =>
      if negb (existsb (fun cell => negb (Str.is_empty (Str.strip cell))) row)
      then extract_rows headers rest contacts
      else
        skip <-
          (if is_nil row then Ok true
           else cell <- getitem row 0 ;;
                Ok (negb (is_person_name (Str.strip cell)))) ;;
        if (skip : bool) then extract_rows headers rest contacts
        else
          c <- map_row headers (List.length row) 0 row (new_contact row) ;;
          if negb (Str.is_empty (name c)) && is_person_name (name c)
          then extract_rows headers rest (contacts ++ [c])
          else extract_rows headers rest contacts
  end.

Definition extract_contact_table (table_data : table)
    : result (list contact) :=
  ok <- is_contact_table table_data ;;
  if negb ok then Ok []
  else
    '(headers, start_row) <- locate_headers table_data ;;
    extract_rows headers (skipn start_row table_data) [].

(* ================================================================= *)
(** ** Vocabulary of the properties and the tables they are tried on *)

(** The table of scenario A. *)
Definition scenario_A : table :=
  [["Name"; "Title"; "Phone"];
   ["Jane Smith"; "Team Lead"; "555-123-4567"];
   ["Robert Jones"; "Analyst"; "555-987-6543"]].

(** What the person-name gate of [is_contact_table] tests on one row. *)
Definition first_cell_is_person (row : list string) : bool :=
  match row with
  | [] => false
  | cell :: _ => is_person_name (Str.strip cell)
  end.

(** The lowercased, space-joined text of the row contains a header keyword. *)
Definition row_has_header_keyword (row : list string) : Prop :=
  exists k, In k header_keywords /\
            Str.contains k (Str.lower (Str.join " " row)) = true.

(** The row has a first cell and its stripped text is a person name. *)
Definition row_names_person (row : list string) : Prop :=
  exists cell, nth_error row 0 = Some cell /\
               is_person_name (Str.strip cell) = true.

(** A capital letter followed by small letters. *)
Definition capitalized (w : string) : bool :=
  match w with
  | EmptyString => false
  | String c w' => Str.is_upper c && Str.all_char Str.is_lower w'
  end.

(** What the specification asks of a name, token by token. *)
Definition name_token (w : string) : Prop :=
  Str.all_char Str.is_alpha w = true /\ 2 <= length w <= 20.

(** Four name tokens that make a text of 53 characters. *)
Definition long_name_tokens : list string :=
  ["Maximiliano"; "Bartholomew"; "Wolfeschlegelstein"; "Vanderbilt"].

(** The test of line 208. *)
Definition valid_name (c : contact) : Prop :=
  name c <> EmptyString /\ is_person_name (name c) = true.

(** The test of line 105 on one row. *)
Definition has_extract_keyword (row : list string) : bool :=
  Str.contains_any extract_header_keywords (Str.lower (Str.join " " row)).

(** [[col.lower().strip() for col in row]]. *)
Definition normalized (row : list string) : list string :=
  map (fun col => Str.strip (Str.lower col)) row.

(** The table whose header row speaks of roles only. *)
Definition role_table : table :=
  [["Team Member"; "Role"; "Location"];
   ["Jane Smith"; "Lead"; "Austin"];
   ["Robert Jones"; "Analyst"; "Dallas"]].

(** A table with a role header and, further down, a row that mentions
    phones. *)
Definition late_header_table : table :=
  [["Team Member"; "Role"; "Ext"];
   ["Jane Smith"; "Lead"; "1"];
   ["Robert Jones"; "Analyst"; "2"];
   ["Phone list"; ""; ""];
   ["Mary Brown"; "Clerk"; "555-123-4567"]].

(** The header list the specification describes, one header per column:
    "name", "title", "contact_info", "field_3", "field_4", ... *)
Definition spec_positional_headers (columns : nat) : list string :=
  map (fun i => match i with
                | 0 => "name"
                | 1 => "title"
                | 2 => "contact_info"
                | _ => append "field_" (Str.of_nat i)
                end) (seq 0 columns).

(** A table accepted for its "role" header, with two columns only. *)
Definition narrow_role_table : table :=
  [["Role"; "Dept"]; ["Jane Smith"; "Lead"]; ["Robert Jones"; "Analyst"]].

(** A table accepted for its "role" header, with four columns. *)
Definition wide_role_table : table :=
  [["Role"; "Dept"; "Ext"; "Desk"];
   ["Jane Smith"; "Lead"; "555-123-4567"; "A1"];
   ["Robert Jones"; "Analyst"; "555-987-6543"; "B2"]].

(** The words that the [if]/[elif] chain of lines 171-189 looks for in a
    header. *)
Definition field_keywords : list string :=
  ["name"; "title"; "role"; "phone"; "mobile"; "cell"; "location"; "site";
   "description"; "notes"; "email"].

(** The header contains one of these words. *)
Definition recognized_header (header : string) : bool :=
  Str.contains_any field_keywords header.

(** A table with a "Fax" column. *)
Definition fax_table : table :=
  [["Name"; "Title"; "Fax"];
   ["Jane Smith"; "Lead"; "mobile 555-123-4567"];
   ["Robert Jones"; "Analyst"; "555-987-6543"]].

(** Case analysis on the condition of an [if] of the goal. *)
Ltac case_if :=
  match goal with
  | |- context [if ?b then _ else _] => destruct b
  end.

(** A table whose second row is longer than its header row. *)
Definition ragged_table : table :=
  [["Name"; "Title"];
   ["Jane Smith"; "Lead"; "jane@x.com"];
   ["Robert Jones"; "Analyst"]].

(** A table with addresses in the title and phone columns. *)
Definition mail_table : table :=
  [["Name"; "Title"; "Phone"];
   ["Jane Smith"; "Lead jane@x.com"; "555-123-4567"];
   ["Robert Jones"; "Analyst"; "bob@x.org"]].

(** What [extract_contact_table] returns on [mail_table]. *)
Definition mail_table_contacts : list contact :=
  [ {| type := "team_member"; name := "Jane Smith";
       title := "Lead jane@x.com"; phone := ["555-123-4567"]; mobile := [];
       email := ["jane@x.com"]; location := ""; description := "";
       raw_data := ["Jane Smith"; "Lead jane@x.com"; "555-123-4567"] |};
    {| type := "team_member"; name := "Robert Jones"; title := "Analyst";
       phone := []; mobile := []; email := ["bob@x.org"];
       location := ""; description := "";
       raw_data := ["Robert Jones"; "Analyst"; "bob@x.org"] |} ].

(* ================================================================= *)
(** ** More [str] methods, for [extract_fixed_document_structure] *)

Module Text.

Definition upper_char (c : ascii) : ascii :=
  if Str.is_lower c then ascii_of_nat (nat_of_ascii c - 32) else c.

Fixpoint upper (s : string) : string :=
  match s with
  | EmptyString => EmptyString
  | String c s' => String (upper_char c) (upper s')
  end.

(** [s.isupper()]: some cased character, and no lowercase one. *)
Definition isupper (s : string) : bool :=
  Str.any_char Str.is_upper s && negb (Str.any_char Str.is_lower s).

(** The truth value of a string. *)
Definition truthy (s : string) : bool := negb (Str.is_empty s).

(** [x in l] for a list of strings. *)
Definition member (x : string) (l : list string) : bool :=
  existsb (String.eqb x) l.

(** [s.replace("", new)]: [new] before every character and at the end. *)
Fixpoint interleave (new s : string) : string :=
  match s with
  | EmptyString => new
  | String c s' => append new (String c (interleave new s'))
  end.

(** The scan of [s.replace(old, new)] for a non-empty [old]: [skip]
    characters still belong to the occurrence replaced last. *)
Fixpoint replace_from (old new : string) (skip : nat) (s : string) : string :=
  match s with
  | EmptyString => EmptyString
  | String c s' =>
      match skip with
      | S j => replace_from old new j s'
      | 0 =>
          if prefix old s
          then append new (replace_from old new (pred (length old)) s')
          else String c (replace_from old new 0 s')
      end
  end.

(** [s.replace(old, new)]. *)
Definition replace (old new s : string) : string :=
  if Str.is_empty old then interleave new s else replace_from old new 0 s.

End Text.

(* ================================================================= *)
(** ** Dictionaries with string keys, in insertion order *)

Definition dict (V : Type) : Type := list (string * V).

(** [d.get(k)]. *)
Fixpoint dict_get {V : Type} (d : dict V) (k : string) : option V :=
  match d with
  | [] => None
  | (k', v) :: d' => if String.eqb k k' then Some v else dict_get d' k
  end.

(** [k in d]. *)
Definition dict_mem {V : Type} (d : dict V) (k : string) : bool :=
  match dict_get d k with
  | Some _ => true
  | None => false
  end.

(** [d[k] = v]: the key keeps its place when it is there already. *)
Fixpoint dict_set {V : Type} (d : dict V) (k : string) (v : V) : dict V :=
  match d with
  | [] => [(k, v)]
  | (k', v') :: d' =>
      if String.eqb k k' then (k', v) :: d' else (k', v') :: dict_set d' k v
  end.

(* ================================================================= *)
(** ** The document that [Document(file_path)] returns *)

Module Docx.

Record Style : Type := mkStyle {
  name : option string
}.

Record Paragraph : Type := mkParagraph {
  text : string;
  style : option Style
}.

(** A table is the list of its rows, a row the list of the texts of its
    cells. *)
Record Document : Type := mkDocument {
  paragraphs : list Paragraph;
  tables : list (list (list string))
}.

End Docx.

(* ================================================================= *)
(** ** [extract_fixed_document_structure] *)

(** An element of a section's ["content"]: [{"type": "text", "content": ...}]
    or a contact dictionary. *)
Inductive item : Type :=
| TextItem (content : string)
| ContactItem (c : contact).

(** [item.get("type")]. *)
Definition item_type (it : item) : string :=
  match it with
  | TextItem _ => "text"
  | ContactItem c => type c
  end.

Record section : Type := mkSection {
  section_title : option string;
  section_type : string;
  section_content : list item
}.

Record toc_entry : Type := mkTocEntry {
  toc_key : string;
  toc_title : string;
  toc_level : nat
}.

Record structure : Type := mkStructure {
  sections : dict section;
  toc : list toc_entry;
  tables : list table
}.

(** What can be raised inside the [try] block. *)
Inductive failure : Type :=
| ListFailure (e : exn)
| KeyError (key : string).

Inductive outcome (A : Type) : Type :=
| Done (a : A)
| Failed (f : failure).

Arguments Done {A} a.
Arguments Failed {A} f.

Definition lift {A : Type} (r : result A) : outcome A :=
  match r with
  | Ok a => Done a
  | Raise e => Failed (ListFailure e)
  end.

Definition and_then {A B : Type} (m : outcome A) (f : A -> outcome B)
    : outcome B :=
  match m with
  | Done a => f a
  | Failed e => Failed e
  end.

Notation "x <~ m ;; k" := (and_then m (fun x => k))
  (at level 61, m at next level, right associativity).

(** Lines 239-244, with [style_name] as line 236 computes it. *)
Definition is_heading (style_name : option string) (text : string) : bool :=
  match style_name with
  | Some sn =>
      if Text.truthy sn then Str.contains "heading" (Str.lower sn) else false
  | None => false
  end
  || match style_name with
     | Some sn =>
         if Text.truthy sn
         then Text.member sn ["Title"; "Heading 1"; "Heading 2"]
         else false
     | None => false
     end
  || Str.contains_any ["SECTION"; "APPENDIX"] (Text.upper text)
  || (Text.isupper text && (10 <? length text) && (length text <? 100)).

(** Line 256. *)
Definition section_key (text : string) : string :=
  Text.replace "," ""
    (Text.replace "-" "_"
       (Text.replace ")" ""
          (Text.replace "(" ""
             (Text.replace ":" ""
                (Text.replace " " "_" (Str.lower text)))))).

(** Line 261. *)
Definition heading_level (text : string) : nat :=
  if Str.contains "SECTION" (Text.upper text)
     || Str.contains "APPENDIX" (Text.upper text)
  then 1 else 2.

(** The variables of the first pass. *)
Record pass_state : Type := mkPass {
  pass_sections : dict section;
  pass_toc : list toc_entry;
  current_section_key : option string;
  current_section_title : option string;
  current_content : list item
}.

(** The truth value of a variable that is [None] or a string. *)
Definition truthy_opt (s : option string) : bool :=
  match s with
  | Some s => Text.truthy s
  | None => false
  end.

(** Lines 248-253 and 278-283: store the section being read, when it has a
    key and some content. *)
Definition save_section (st : pass_state) : dict section :=
  match current_section_key st with
  | Some key =>
      if Text.truthy key && negb (is_nil (current_content st))
      then dict_set (pass_sections st) key
             (mkSection (current_section_title st) "general"
                        (current_content st))
      else pass_sections st
  | None => pass_sections st
  end.

(** The body of the loop over [doc.paragraphs] (lines 232-275). *)
Definition paragraph_step (st : pass_state) (paragraph : Docx.Paragraph)
    : pass_state :=
  let text := Str.strip (Docx.text paragraph) in
  if negb (Text.truthy text) then st
  else
    let style_name :=
      match Docx.style paragraph with
      | Some s => Docx.name s
      | None => Some "Normal"
      end in
    if is_heading style_name text then
      let key := section_key text in
      mkPass (save_section st)
             (pass_toc st ++ [mkTocEntry key text (heading_level text)])
             (Some key) (Some text) []
    else if truthy_opt (current_section_key st) then
      mkPass (pass_sections st) (pass_toc st) (current_section_key st)
             (current_section_title st)
             (current_content st ++ [TextItem text])
    else st.

(** Lines 220-283: the first pass, with the last section saved. *)
Definition first_pass (paragraphs : list Docx.Paragraph) : pass_state :=
  let st := fold_left paragraph_step paragraphs
                      (mkPass [] [] None None []) in
  mkPass (save_section st) (pass_toc st) (current_section_key st)
         (current_section_title st) (current_content st).

(** Lines 289-293: the non-empty stripped texts of the cells of a row. *)
Fixpoint row_data_of (cells : list string) : list string :=
  match cells with
  | [] => []
  | cell :: rest =>
      let cell_text := Str.strip cell in
      if Text.truthy cell_text then cell_text :: row_data_of rest
      else row_data_of rest
  end.

(** Lines 287-295: the non-empty rows of a table. *)
Fixpoint table_data_of (rows : list (list string)) : table :=
  match rows with
  | [] => []
  | row :: rest =>
      let row_data := row_data_of row in
      if negb (is_nil row_data) then row_data :: table_data_of rest
      else table_data_of rest
  end.

(** Lines 306-317: the key of the section the contacts should go to. *)
Definition target_section_of (table_data : table)
    (section_key_now : option string) : option string :=
  let table_context :=
    Str.lower (Str.join " " (map (Str.join " ") (firstn 2 table_data))) in
  let target_section :=
    if Str.contains "bft" table_context
       || Str.contains "business function" table_context
    then Some "business_function_team_bft"
    else if Str.contains "cft" table_context
            || Str.contains "cross functional" table_context
    then Some "cross_functional_team_cft"
    else None in
  if negb (truthy_opt target_section) && truthy_opt section_key_now then
    match section_key_now with
    | Some key =>
        if Str.contains "business_function" key || Str.contains "bft" key
        then Some key else target_section
    | None => target_section
    end
  else target_section.

(** Lines 319-331: add the contacts to the target section, or make a
    section for them. *)
Definition place_contacts (secs : dict section) (table_data : table)
    (target_section : option string) (contacts : list contact)
    : outcome (dict section) :=
  let table_context :=
    Str.lower (Str.join " " (map (Str.join " ") (firstn 2 table_data))) in
  let in_sections :=
    match target_section with
    | Some key => Text.truthy key && dict_mem secs key
    | None => false
    end in
  if in_sections then
    match target_section with
    | Some key =>
        match dict_get secs key with
        | Some sec =>
            let content :=
              if is_nil (section_content sec) then []
              else section_content sec in
            Done (dict_set secs key
                    (mkSection (section_title sec) "contacts"
                               (content ++ map ContactItem contacts)))
        | None => Failed (KeyError key)
        end
    | None => Done secs
    end
  else if negb (is_nil contacts) then
    let key :=
      if truthy_opt target_section then
        match target_section with
        | Some key => key
        | None => EmptyString
        end
      else append "team_contacts_" (Str.of_nat (List.length secs)) in
    Done (dict_set secs key
            (mkSection
               (Some (if Str.contains "bft" table_context
                      then "Business Function Team (BFT)"
                      else "Team Contacts"))
               "contacts" (map ContactItem contacts)))
  else Done secs.

(** The body of the loop over [doc.tables] (lines 287-331), on the sections
    and the list of tables; [section_key_now] is [current_section_key] as the
    first pass left it. *)
Definition table_step (section_key_now : option string)
    (st : dict section * list table) (rows : list (list string))
    : outcome (dict section * list table) :=
  let '(secs, tabs) := st in
  let table_data := table_data_of rows in
  if negb (is_nil table_data) then
    let tabs := tabs ++ [table_data] in
    accepted <~ lift (is_contact_table table_data) ;;
    if (accepted : bool) then
      contacts <~ lift (extract_contact_table table_data) ;;
      if negb (is_nil contacts) then
        secs <~ place_contacts secs table_data
                  (target_section_of table_data section_key_now) contacts ;;
        Done (secs, tabs)
      else Done (secs, tabs)
    else Done (secs, tabs)
  else Done (secs, tabs).

Fixpoint second_pass (section_key_now : option string)
    (st : dict section * list table) (tabs : list (list (list string)))
    : outcome (dict section * list table) :=
  match tabs with
  | [] => Done st
  | rows :: rest =>
      st <~ table_step section_key_now st rows ;;
      second_pass section_key_now st rest
  end.

(** What [extract_fixed_document_structure] returns: the structure, or the
    dictionary [{"error": ...}] of the [except] clause. *)
Inductive extraction : Type :=
| Structure (s : structure)
| ErrorDict (f : failure).

(** Lines 220-336, for the document [doc] loaded at line 219. *)
Definition extract_fixed_document_structure (doc : Docx.Document)
    : extraction :=
  let st := first_pass (Docx.paragraphs doc) in
  match second_pass (current_section_key st) (pass_sections st, [])
                    (Docx.tables doc) with
  | Done (secs, tabs) => Structure (mkStructure secs (pass_toc st) tabs)
  | Failed f => ErrorDict f
  end.

(* ================================================================= *)
(** ** The count of [convert_with_fixed_extraction] *)

(** Lines 389-396: [(contact_count, contact_tables)] after the loop over the
    sections. *)
Fixpoint count_contacts (secs : dict section) (contact_count : nat)
    (contact_tables : nat) : nat * nat :=
  match secs with
  | [] => (contact_count, contact_tables)
  | (_, sec) :: rest =>
      if String.eqb (section_type sec) "contacts" then
        let team_members :=
          filter (fun it => String.eqb (item_type it) "team_member")
                 (section_content sec) in
        count_contacts rest (contact_count + List.length team_members)
                       (contact_tables + 1)
      else count_contacts rest contact_count contact_tables
  end.

(* ================================================================= *)
(** ** Vocabulary of the further properties *)

(** [l] is [l'] with some elements left out, the order kept. *)
Inductive subsequence {A : Type} : list A -> list A -> Prop :=
| subsequence_nil : subsequence [] []
| subsequence_skip (x : A) (l l' : list A) :
    subsequence l l' -> subsequence l (x :: l')
| subsequence_take (x : A) (l l' : list A) :
    subsequence l l' -> subsequence (x :: l) (x :: l').

(** The characters and one separator for each word. *)
Fixpoint words_weight (words : list string) : nat :=
  match words with
  | [] => 0
  | w :: rest => length w + 1 + words_weight rest
  end.

(** A record as [extract_contact_table] returns them. *)
Definition contact_ok (c : contact) : Prop :=
  valid_name c /\ type c = "team_member".

Definition is_contact_item (it : item) : bool :=
  match it with
  | TextItem _ => false
  | ContactItem _ => true
  end.

(** A text item holds a non-empty text, a contact item a valid record. *)
Definition item_ok (it : item) : Prop :=
  match it with
  | TextItem content => content <> EmptyString
  | ContactItem c => contact_ok c
  end.

(** The two kinds of sections: "general" sections hold text items only and
    at least one; "contacts" sections hold at least one contact. *)
Definition section_ok (sec : section) : Prop :=
  Forall item_ok (section_content sec) /\
  ((section_type sec = "general" /\ section_content sec <> [] /\
    Forall (fun it => is_contact_item it = false) (section_content sec)) \/
   (section_type sec = "contacts" /\
    Exists (fun it => is_contact_item it = true) (section_content sec))).

(** Lines 232 and 236 for one paragraph. *)
Definition paragraph_text (p : Docx.Paragraph) : string :=
  Str.strip (Docx.text p).

Definition paragraph_style_name (p : Docx.Paragraph) : option string :=
  match Docx.style p with
  | Some s => Docx.name s
  | None => Some "Normal"
  end.

(** The paragraph is not blank and is taken as a heading. *)
Definition heading_paragraph (p : Docx.Paragraph) : bool :=
  Text.truthy (paragraph_text p)
  && is_heading (paragraph_style_name p) (paragraph_text p).

(** The entry of lines 263-267 for a heading paragraph. *)
Definition toc_entry_of (p : Docx.Paragraph) : toc_entry :=
  mkTocEntry (section_key (paragraph_text p)) (paragraph_text p)
             (heading_level (paragraph_text p)).

(** A cell as the second pass keeps them: not empty, nothing to strip. *)
Definition clean_cell (cell : string) : Prop :=
  cell <> EmptyString /\ Str.strip cell = cell.

(** All the items of all the sections. *)
Definition all_items (secs : dict section) : list item :=
  flat_map (fun kv => section_content (snd kv)) secs.

(** A document with a cover note, two headed sections and a table of team
    members. *)
Definition sample_paragraphs : list Docx.Paragraph :=
  [ Docx.mkParagraph "SECTION 1: Overview"
      (Some (Docx.mkStyle (Some "Normal")));
    Docx.mkParagraph " Plan overview. " None;
    Docx.mkParagraph "Business Function Team (BFT)"
      (Some (Docx.mkStyle (Some "Heading 1")));
    Docx.mkParagraph "Call the team lead first."
      (Some (Docx.mkStyle None)) ].

Definition sample_tables : list (list (list string)) :=
  [ [ ["Name"; " Title "; "Phone"; ""];
      ["Jane Smith"; "Team Lead"; "555-123-4567"; " "];
      [""; " "];
      ["Robert Jones"; "Analyst"; "555-987-6543"; ""] ] ].

Definition sample_document : Docx.Document :=
  Docx.mkDocument
    (Docx.mkParagraph "Cover note" None :: sample_paragraphs) sample_tables.


(** The sections stored so far are well formed and the content being read
    is made of non-empty texts. *)
Definition pass_ok (st : pass_state) : Prop :=
  Forall (fun kv => section_ok (snd kv)) (pass_sections st) /\
  Forall (fun it => item_ok it /\ is_contact_item it = false)
         (current_content st).

(** Every stored section, and the section being read, has the key and the
    title of an entry of the table of contents. *)
Definition pass_in_toc (st : pass_state) : Prop :=
  (forall key sec,
      In (key, sec) (pass_sections st) ->
      exists e, In e (pass_toc st) /\ toc_key e = key /\
                section_title sec = Some (toc_title e)) /\
  (forall key,
      current_section_key st = Some key ->
      exists e, In e (pass_toc st) /\ toc_key e = key /\
                current_section_title st = Some (toc_title e)).

(** The characters that a match of the pattern can hold: those of the
    classes of its quantified atoms. *)
Definition pattern_chars (p : Re.pattern) (c : ascii) : bool :=
  existsb (fun a => match a with
                    | Re.Rep cls _ _ => cls c
                    | _ => false
                    end) p.

(* ================================================================= *)
(** * Properties *)

(** ** Lists *)

Section ListFacts.
Context {A : Type}.
Variable p : A -> bool.

Lemma getitem_Some (l : list A) (i : nat) (x : A) :
  nth_error l i = Some x -> getitem l i = Ok x.
Proof. unfold getitem. intros ->. reflexivity. Qed.

Lemma filter_nonempty (l : list A) :
  1 <= List.length (filter p l) <->
  exists i x, nth_error l i = Some x /\ p x = true.
Proof.
  induction l as [|a l IH]; simpl.
  - split; [lia|]. intros (i & x & H & _). destruct i; discriminate.
  - destruct (p a) eqn:Ha; simpl.
    + split; [|lia]. intros _. exists 0, a. auto.
    + rewrite IH. split.
      * intros (i & x & H & Hx). exists (S i), x. auto.
      * intros (i & x & H & Hx). destruct i as [|i]; simpl in H.
        -- congruence.
        -- exists i, x. auto.
Qed.

Lemma filter_two (l : list A) :
  2 <= List.length (filter p l) <->
  exists i j x y, i < j /\ nth_error l i = Some x /\ nth_error l j = Some y
                  /\ p x = true /\ p y = true.
Proof.
  induction l as [|a l IH]; simpl.
  - split; [lia|]. intros (i & j & x & y & _ & H & _). destruct i; discriminate.
  - destruct (p a) eqn:Ha; simpl.
    + split.
      * intros H. assert (H1 : 1 <= List.length (filter p l)) by lia.
        apply filter_nonempty in H1. destruct H1 as (j & y & Hj & Hy).
        exists 0, (S j), a, y. repeat split; auto. lia.
      * intros (i & j & x & y & Hij & Hi & Hj & Hx & Hy).
        destruct j as [|j]; [lia|]. simpl in Hj.
        assert (1 <= List.length (filter p l)); [|lia].
        apply filter_nonempty. eauto.
    + rewrite IH. split.
      * intros (i & j & x & y & Hij & Hi & Hj & Hx & Hy).
        exists (S i), (S j), x, y. repeat split; auto. lia.
      * intros (i & j & x & y & Hij & Hi & Hj & Hx & Hy).
        destruct j as [|j]; [lia|]. destruct i as [|i]; simpl in Hi, Hj.
        -- congruence.
        -- exists i, j, x, y. repeat split; auto. lia.
Qed.

Lemma existsb_nth_error (l : list A) :
  existsb p l = true <-> exists i x, nth_error l i = Some x /\ p x = true.
Proof.
  rewrite existsb_exists. split.
  - intros (x & Hin & Hx). apply In_nth_error in Hin.
    destruct Hin as [i Hi]. eauto.
  - intros (i & x & Hi & Hx). apply nth_error_In in Hi. eauto.
Qed.
End ListFacts.

Lemma existsb_id_map {A : Type} (f : A -> bool) (l : list A) :
  existsb (fun b => b) (map f l) = existsb f l.
Proof. induction l as [|a l IH]; simpl; [|rewrite IH]; reflexivity. Qed.

(** ** The loops return *)

Lemma count_persons_value (rows : table) (n : nat) :
  count_persons rows n
  = Ok (n + List.length (filter first_cell_is_person rows)).
Proof.
  revert n. induction rows as [|row rest IH]; intros n; simpl.
  - f_equal. lia.
  - destruct row as [|cell cells]; simpl.
    + apply IH.
    + destruct (is_person_name (Str.strip cell)); simpl; rewrite IH;
        f_equal; lia.
Qed.

Lemma is_contact_table_value (t : table) :
  is_contact_table t
  = Ok (negb (is_nil t || (List.length t <? 2))
        && existsb (fun row =>
                      Str.contains_any header_keywords
                        (Str.lower (Str.join " " row))) (firstn 3 t)
        && (2 <=? List.length (filter first_cell_is_person
                                 (firstn 5 (skipn 1 t))))).
Proof.
  unfold is_contact_table.
  destruct (is_nil t || (List.length t <? 2)); [reflexivity|].
  rewrite existsb_id_map.
  destruct (existsb _ (firstn 3 t)); [|reflexivity].
  rewrite count_persons_value. reflexivity.
Qed.

Lemma map_row_returns (headers : list string) (row_len : nat)
    (cells : list string) :
  forall i c, exists c', map_row headers row_len i cells c = Ok c'.
Proof.
  induction cells as [|cell rest IH]; intros i c; simpl.
  - eauto.
  - destruct (List.length headers <=? i) eqn:Hi; [eauto|].
    apply Nat.leb_gt in Hi.
    destruct (Str.is_empty (Str.strip cell)); [apply IH|].
    apply Nat.ltb_lt in Hi as Hlt. rewrite Hlt.
    destruct (nth_error headers i) as [h|] eqn:Hh.
    + rewrite (getitem_Some _ _ _ Hh). simpl. apply IH.
    + apply nth_error_None in Hh. lia.
Qed.

Lemma extract_rows_returns (headers : list string) (rows : table) :
  forall acc, exists cs, extract_rows headers rows acc = Ok cs.
Proof.
  induction rows as [|row rest IH]; intros acc; simpl.
  - eauto.
  - destruct (negb (existsb _ row)); [apply IH|].
    destruct row as [|cell cells]; simpl; [apply IH|].
    destruct (is_person_name (Str.strip cell)); simpl; [|apply IH].
    destruct (map_row_returns headers (S (List.length cells))
                (cell :: cells) 0 (new_contact (cell :: cells))) as [c Hc].
    simpl in Hc. rewrite Hc. simpl.
    destruct (negb (Str.is_empty (name c)) && is_person_name (name c));
      apply IH.
Qed.

Lemma locate_headers_returns (t : table) :
  t <> [] -> exists hs start, locate_headers t = Ok (hs, start).
Proof.
  intros Ht. unfold locate_headers.
  destruct (find_header_row 0 t) as [hs idx].
  destruct t as [|row0 rest]; [congruence|].
  destruct (idx =? -1)%Z; cbn [getitem nth_error bind];
    [destruct (3 <=? List.length row0)|]; cbn [bind]; eauto.
Qed.

Lemma extract_contact_table_returns (t : table) :
  exists cs, extract_contact_table t = Ok cs.
Proof.
  unfold extract_contact_table. rewrite is_contact_table_value. simpl.
  destruct t as [|row0 rest]; [simpl; eauto|].
  match goal with |- context [negb ?b] => destruct b end; simpl; [|eauto].
  destruct (locate_headers_returns (row0 :: rest)) as (hs & start & H);
    [discriminate|].
  rewrite H. simpl. apply extract_rows_returns.
Qed.

(** C1: on the table of scenario A, [["Name","Title","Phone"], ["Jane
    Smith","Team Lead","555-123-4567"], ["Robert Jones","Analyst",
    "555-987-6543"]], [is_contact_table] returns [True] and
    [extract_contact_table] returns exactly two records in row order: Jane
    Smith, Team Lead, phone ["555-123-4567"], then Robert Jones, Analyst,
    phone ["555-987-6543"]; the mobile and email lists, the location and the
    description are empty in both. *)
Theorem scenario_A_contacts :
  is_contact_table scenario_A = Ok true /\
  extract_contact_table scenario_A
  = Ok [ {| type := "team_member"; name := "Jane Smith";
            title := "Team Lead"; phone := ["555-123-4567"];
            mobile := []; email := []; location := ""; description := "";
            raw_data := ["Jane Smith"; "Team Lead"; "555-123-4567"] |};
         {| type := "team_member"; name := "Robert Jones";
            title := "Analyst"; phone := ["555-987-6543"];
            mobile := []; email := []; location := ""; description := "";
            raw_data := ["Robert Jones"; "Analyst"; "555-987-6543"] |} ].
Proof. split; vm_compute; reflexivity. Qed.

(** C7: a table with fewer than two rows (the empty table included) is
    rejected by [is_contact_table] and gives [extract_contact_table] an empty
    list; and on every list of rows of strings both functions return a value,
    no subscript raises. *)
Theorem short_tables_and_no_exception (t : table) :
  (exists b, is_contact_table t = Ok b) /\
  (exists cs, extract_contact_table t = Ok cs) /\
  (List.length t < 2 ->
   is_contact_table t = Ok false /\ extract_contact_table t = Ok []).
Proof.
  split; [rewrite is_contact_table_value; eauto|].
  split; [apply extract_contact_table_returns|].
  intros Hlen.
  assert (H : is_contact_table t = Ok false).
  { unfold is_contact_table. apply Nat.ltb_lt in Hlen. rewrite Hlen.
    rewrite orb_true_r. reflexivity. }
  split; [exact H|]. unfold extract_contact_table. rewrite H. reflexivity.
Qed.

(** ** The three gates of [is_contact_table] *)

Lemma first_cell_is_person_iff (row : list string) :
  first_cell_is_person row = true <-> row_names_person row.
Proof.
  unfold row_names_person. destruct row as [|cell cells]; simpl.
  - split; [discriminate|]. intros (c & H & _). discriminate.
  - split.
    + intros H. exists cell. auto.
    + intros (c & [= <-] & H). exact H.
Qed.

Lemma contains_any_iff (words : list string) (text : string) :
  Str.contains_any words text = true <->
  exists k, In k words /\ Str.contains k text = true.
Proof. apply existsb_exists. Qed.

Lemma nth_error_rows_1_to_5 (t : table) (i : nat) (row : list string) :
  nth_error (firstn 5 (skipn 1 t)) i = Some row <->
  i < 5 /\ nth_error t (S i) = Some row.
Proof.
  rewrite nth_error_firstn, nth_error_skipn.
  destruct (i <? 5) eqn:Hi.
  - apply Nat.ltb_lt in Hi. simpl. tauto.
  - apply Nat.ltb_ge in Hi. split; [discriminate|lia].
Qed.

(** C2: [is_contact_table] returns [True] exactly when the table has at least
    2 rows, one of its first 3 rows has a lowercased space-joined text that
    contains one of "name", "title", "phone", "mobile", "email", "contact",
    "role", "team member", and at least 2 of the rows 1 to 5 have a first cell
    whose stripped text passes [is_person_name]. *)
Theorem is_contact_table_gates (t : table) :
  is_contact_table t = Ok true <->
  2 <= List.length t /\
  (exists i row, i < 3 /\ nth_error t i = Some row /\
                 row_has_header_keyword row) /\
  (exists i j ri rj,
      1 <= i /\ i < j /\ j <= 5 /\
      nth_error t i = Some ri /\ nth_error t j = Some rj /\
      row_names_person ri /\ row_names_person rj).
Proof.
  rewrite is_contact_table_value.
  assert (Hok : forall b, Ok b = Ok true <-> b = true)
    by (intros b; split; [intros [= ->]|intros ->]; reflexivity).
  rewrite Hok, !andb_true_iff, negb_true_iff, orb_false_iff,
    Nat.ltb_ge, Nat.leb_le, existsb_nth_error, filter_two.
  split.
  - intros [[[_ Hlen] (i & row & Hi & Hk)] (a & b & ra & rb & Hab & Ha & Hb & Hpa & Hpb)].
    split; [exact Hlen|]. split.
    + exists i, row. rewrite nth_error_firstn in Hi.
      destruct (i <? 3) eqn:Hlt; [|discriminate].
      apply Nat.ltb_lt in Hlt. apply contains_any_iff in Hk. auto.
    + apply nth_error_rows_1_to_5 in Ha, Hb.
      exists (S a), (S b), ra, rb.
      rewrite <- !first_cell_is_person_iff. intuition lia.
  - intros (Hlen & (i & row & Hi & Hrow & Hk) &
            (a & b & ra & rb & H1 & Hab & H5 & Ha & Hb & Hpa & Hpb)).
    split; [split|].
    + split; [|exact Hlen]. destruct t; [simpl in Hlen; lia|reflexivity].
    + exists i, row. rewrite nth_error_firstn.
      apply Nat.ltb_lt in Hi. rewrite Hi. split; [exact Hrow|].
      apply contains_any_iff. exact Hk.
    + destruct a as [|a]; [lia|]. destruct b as [|b]; [lia|].
      exists a, b, ra, rb. rewrite !nth_error_rows_1_to_5.
      rewrite !first_cell_is_person_iff. intuition lia.
Qed.

(** ** The denylist of [is_person_name] *)

Lemma denylisted_rejected (s w : string) :
  In w non_person_words -> Str.contains w (Str.lower s) = true ->
  is_person_name s = false.
Proof.
  intros Hin Hc. unfold is_person_name.
  destruct (Str.is_empty s || (length s <? 2)); [reflexivity|].
  replace (Str.contains_any non_person_words (Str.lower s)) with true;
    [reflexivity|].
  symmetry. apply contains_any_iff. eauto.
Qed.

(** C9: "Matthew Smith" is an ordinary name, two capitalized alphabetic
    tokens of 7 and 5 letters, 13 characters in all, and passes the pattern,
    the capital-letter and the word-count tests, yet [is_person_name] rejects
    it: its lowercased text contains the denylisted "the", and the denylist
    test is a substring test, so every text whose lowercased form contains a
    denylisted word ("the", "if", "this", "that" among them) is rejected. *)
Theorem matthew_smith_rejected :
  is_person_name "Matthew Smith" = false /\
  Str.split "Matthew Smith" = ["Matthew"; "Smith"] /\
  forallb capitalized (Str.split "Matthew Smith") = true /\
  forallb word_ok (Str.split "Matthew Smith") = true /\
  length "Matthew Smith" < 50 /\
  Re.re_match name_pattern "Matthew Smith" = true /\
  Str.contains "the" (Str.lower "Matthew Smith") = true /\
  In "the" non_person_words /\ In "if" non_person_words /\
  In "this" non_person_words /\ In "that" non_person_words /\
  (forall s w, In w non_person_words ->
               Str.contains w (Str.lower s) = true ->
               is_person_name s = false).
Proof.
  repeat match goal with
         | |- _ /\ _ => split
         | |- In _ _ => unfold non_person_words; simpl; tauto
         | |- _ = _ => vm_compute; reflexivity
         | |- _ < _ => vm_compute; lia
         end.
  exact denylisted_rejected.
Qed.

(** ** Strings *)

Lemma append_empty_r (s : string) : append s EmptyString = s.
Proof. induction s as [|c s IH]; simpl; [|rewrite IH]; reflexivity. Qed.

Lemma append_assoc (a b c : string) :
  append (append a b) c = append a (append b c).
Proof. induction a as [|x a IH]; simpl; [|rewrite IH]; reflexivity. Qed.

Lemma length_append (a b : string) :
  length (append a b) = length a + length b.
Proof. induction a as [|x a IH]; simpl; [|rewrite IH]; reflexivity. Qed.

Lemma all_char_append (p : ascii -> bool) (a b : string) :
  Str.all_char p (append a b) = Str.all_char p a && Str.all_char p b.
Proof.
  induction a as [|x a IH]; simpl; [reflexivity|].
  rewrite IH. apply andb_assoc.
Qed.

Lemma all_char_weaken (p q : ascii -> bool) (s : string) :
  (forall c, p c = true -> q c = true) ->
  Str.all_char p s = true -> Str.all_char q s = true.
Proof.
  intros Hpq. induction s as [|c s IH]; simpl; [reflexivity|].
  rewrite !andb_true_iff. intros [Hc Hs]. auto.
Qed.

Lemma any_char_all_char (p q : ascii -> bool) (s : string) :
  (forall c, p c = true -> q c = false) ->
  Str.any_char p s = true -> Str.all_char q s = false.
Proof.
  intros Hpq. induction s as [|c s IH]; simpl; [discriminate|].
  rewrite orb_true_iff, andb_false_iff. intros [Hc|Hs]; auto.
Qed.

Lemma is_empty_true (s : string) : Str.is_empty s = true -> s = EmptyString.
Proof. destruct s; [reflexivity|discriminate]. Qed.

(** Character classes, decided over the 256 characters. *)
Lemma forall_ascii (P : ascii -> bool) :
  forallb (fun n => P (ascii_of_nat n)) (seq 0 256) = true ->
  forall c, P c = true.
Proof.
  intros H c. rewrite forallb_forall in H.
  rewrite <- (ascii_nat_embedding c). apply H.
  apply in_seq. pose proof (nat_ascii_bounded c). lia.
Qed.

Lemma alpha_not_space (c : ascii) :
  Str.is_alpha c = true -> Str.isspace c = false.
Proof.
  revert c.
  assert (H : forall c, implb (Str.is_alpha c) (negb (Str.isspace c)) = true)
    by (apply forall_ascii; vm_compute; reflexivity).
  intros c Hc. specialize (H c). rewrite Hc in H. simpl in H.
  apply negb_true_iff in H. exact H.
Qed.

Lemma alpha_name_cls (c : ascii) :
  Str.is_alpha c = true -> name_cls c = true.
Proof. unfold name_cls. intros ->. reflexivity. Qed.

Lemma digit_not_name_cls (c : ascii) :
  Str.is_digit c = true -> name_cls c = false.
Proof.
  revert c.
  assert (H : forall c, implb (Str.is_digit c) (negb (name_cls c)) = true)
    by (apply forall_ascii; vm_compute; reflexivity).
  intros c Hc. specialize (H c). rewrite Hc in H. simpl in H.
  apply negb_true_iff in H. exact H.
Qed.

Lemma underscore_not_name_cls (c : ascii) :
  Ascii.eqb "_" c = true -> name_cls c = false.
Proof. intros H. apply Ascii.eqb_eq in H. subst c. reflexivity. Qed.

(** *** [lower] and [in] *)

Lemma prefix_lower (a b : string) :
  prefix a b = true -> prefix (Str.lower a) (Str.lower b) = true.
Proof.
  revert a. induction b as [|y b IH]; intros [|x a]; simpl; auto.
  destruct (ascii_dec x y) as [->|]; [|discriminate].
  intros H. destruct (ascii_dec (Str.lower_char y) (Str.lower_char y));
    [auto|congruence].
Qed.

Lemma contains_lower (a b : string) :
  Str.contains a b = true ->
  Str.contains (Str.lower a) (Str.lower b) = true.
Proof.
  induction b as [|y b IH]; simpl; rewrite !orb_true_iff.
  - intros [H|H]; [|discriminate]. left. apply (prefix_lower a ""). exact H.
  - intros [H|H].
    + left. apply (prefix_lower a (String y b)). exact H.
    + right. auto.
Qed.

Lemma non_person_words_lowercase (w : string) :
  In w non_person_words -> Str.lower w = w.
Proof.
  unfold non_person_words. simpl.
  intros H. repeat (destruct H as [<-|H]; [reflexivity|]). destruct H.
Qed.

(** *** [split] after [join] *)

Lemma split_from_word (w rest tok : string) :
  Str.all_char Str.is_alpha w = true ->
  Str.split_from tok (append w rest) = Str.split_from (append tok w) rest.
Proof.
  revert tok. induction w as [|c w IH]; intros tok; simpl.
  - rewrite append_empty_r. reflexivity.
  - rewrite andb_true_iff. intros [Hc Hw].
    rewrite (alpha_not_space c Hc), IH by exact Hw.
    rewrite append_assoc. reflexivity.
Qed.

Lemma split_join_words (w : string) (ws : list string) :
  Forall (fun w => Str.all_char Str.is_alpha w = true /\ w <> EmptyString)
         (w :: ws) ->
  Str.split (Str.join " " (w :: ws)) = w :: ws.
Proof.
  unfold Str.split, Str.join. revert w.
  induction ws as [|w' ws IH]; intros w Hall.
  - inversion Hall as [|? ? [Hw Hne] _]; subst. simpl.
    rewrite <- (append_empty_r w) at 1.
    rewrite split_from_word by exact Hw. simpl.
    destruct w; [congruence|reflexivity].
  - inversion Hall as [|? ? [Hw Hne] Hrest]; subst.
    change (concat " " (w :: w' :: ws))
      with (append w (append " " (concat " " (w' :: ws)))).
    rewrite split_from_word by exact Hw. simpl.
    destruct w; [congruence|]. simpl. f_equal. apply IH. exact Hrest.
Qed.

Lemma all_char_join_words (ws : list string) :
  Forall (fun w => Str.all_char Str.is_alpha w = true) ws ->
  Str.all_char name_cls (Str.join " " ws) = true.
Proof.
  unfold Str.join. induction ws as [|w ws IH]; intros Hall; [reflexivity|].
  inversion Hall as [|? ? Hw Hrest]; subst.
  assert (Hn : Str.all_char name_cls w = true)
    by (apply (all_char_weaken Str.is_alpha); [exact alpha_name_cls|exact Hw]).
  destruct ws as [|w' ws]; [exact Hn|].
  change (concat " " (w :: w' :: ws))
    with (append w (append " " (concat " " (w' :: ws)))).
  rewrite !all_char_append, Hn, IH by exact Hrest. reflexivity.
Qed.

(** ** The name pattern *)

Lemma rep_unbounded_complete (cls : ascii -> bool)
    (k : option ascii -> string -> option nat) (s : string) :
  (forall prev, k prev EmptyString <> None) ->
  Str.all_char cls s = true ->
  forall lo prev, lo <= length s -> Re.rep cls k lo None prev s <> None.
Proof.
  intros Hk. induction s as [|c s IH]; simpl; intros Hall lo prev Hlo.
  - destruct lo; [apply Hk|lia].
  - apply andb_true_iff in Hall as [Hc Hs]. rewrite Hc.
    specialize (IH Hs (pred lo) (Some c)).
    destruct (Re.rep cls k (pred lo) None (Some c) s);
      [discriminate|]. exfalso. apply IH; [lia|reflexivity].
Qed.

Lemma rep_name_sound (s : string) :
  forall lo prev n,
    Re.rep name_cls (Re.match_here [Re.Eol]) lo None prev s = Some n ->
    Str.all_char name_cls s = true /\ lo <= length s.
Proof.
  assert (Hstop : forall c s' prev lo n,
             match lo with
             | 0 => Re.match_here [Re.Eol] prev (String c s')
             | S _ => None
             end = Some n ->
             Str.all_char name_cls (String c s') = true
             /\ lo <= length (String c s')).
  { intros c s' prev [|lo] n; [|discriminate]. simpl.
    destruct s'; [|discriminate].
    destruct (Ascii.eqb c "010") eqn:Hc; [|discriminate].
    apply Ascii.eqb_eq in Hc. subst c. intros _. split; [reflexivity|lia]. }
  induction s as [|c s IH]; intros lo prev n H;
    cbn [Re.rep option_map] in H.
  - destruct lo; [|discriminate]. auto.
  - destruct (name_cls c) eqn:Hc; [|exact (Hstop _ _ _ _ _ H)].
    destruct (Re.rep name_cls (Re.match_here [Re.Eol]) (pred lo) None
                (Some c) s) as [m|] eqn:Hm;
      [|exact (Hstop _ _ _ _ _ H)].
    apply IH in Hm as [Hs Hlo]. simpl. rewrite Hc, Hs.
    split; [reflexivity|lia].
Qed.

Lemma name_pattern_match (s : string) :
  Re.re_match name_pattern s = true <->
  s <> EmptyString /\ Str.all_char name_cls s = true.
Proof.
  unfold Re.re_match, name_pattern, Re.plus.
  cbn [Re.match_here Re.at_bol]. split.
  - destruct (Re.rep name_cls _ 1 None None s) as [n|] eqn:H; [|discriminate].
    apply rep_name_sound in H as [Hall Hlen]. intros _.
    split; [|exact Hall]. intros ->. simpl in Hlen. lia.
  - intros [Hne Hall].
    pose proof (rep_unbounded_complete name_cls (Re.match_here [Re.Eol]) s)
      as H.
    specialize (H (fun _ => ltac:(discriminate)) Hall 1 None).
    destruct (Re.rep name_cls _ 1 None None s); [reflexivity|].
    exfalso. apply H; [|reflexivity]. destruct s; [congruence|simpl; lia].
Qed.

(** ** [is_person_name], test by test *)

Lemma is_person_name_true (text : string) :
  is_person_name text = true <->
  2 <= length text /\
  Str.contains_any non_person_words (Str.lower text) = false /\
  length text <= 50 /\
  Re.re_match name_pattern text = true /\
  Str.any_char Str.is_upper text = true /\
  2 <= List.length (Str.split text) <= 4 /\
  forallb word_ok (Str.split text) = true.
Proof.
  unfold is_person_name.
  destruct (Str.is_empty text || (length text <? 2)) eqn:H2.
  { split; [discriminate|]. intros (H & _).
    apply orb_true_iff in H2 as [He|Hl].
    - apply is_empty_true in He. subst. simpl in H. lia.
    - apply Nat.ltb_lt in Hl. lia. }
  apply orb_false_iff in H2 as [_ H2]. apply Nat.ltb_ge in H2.
  destruct (Str.contains_any non_person_words (Str.lower text));
    [split; [discriminate|intros (_ & H & _); discriminate]|].
  destruct (50 <? length text) eqn:H50.
  { apply Nat.ltb_lt in H50. split; [discriminate|]. intros (_ & _ & H & _). lia. }
  apply Nat.ltb_ge in H50.
  destruct (Re.re_match name_pattern text);
    [|split; [discriminate|intros (_ & _ & _ & H & _); discriminate]].
  destruct (Str.any_char Str.is_upper text);
    [|split; [discriminate|intros (_ & _ & _ & _ & H & _); discriminate]].
  simpl.
  destruct ((List.length (Str.split text) <? 2)
            || (4 <? List.length (Str.split text))) eqn:Hw.
  { split; [discriminate|]. intros (_ & _ & _ & _ & _ & H & _).
    apply orb_true_iff in Hw as [Hw|Hw]; apply Nat.ltb_lt in Hw; lia. }
  apply orb_false_iff in Hw as [Hw2 Hw4].
  apply Nat.ltb_ge in Hw2, Hw4. intuition.
Qed.

Lemma length_join_ge (ws : list string) :
  2 <= List.length ws ->
  Forall (fun w => 2 <= length w) ws ->
  2 <= length (Str.join " " ws).
Proof.
  intros Hlen Hall. destruct ws as [|w [|w' ws]]; simpl in Hlen; try lia.
  inversion Hall; subst. unfold Str.join.
  change (concat " " (w :: w' :: ws))
    with (append w (append " " (concat " " (w' :: ws)))).
  rewrite length_append. lia.
Qed.

Lemma name_tokens_accepted (toks : list string) :
  2 <= List.length toks <= 4 ->
  Forall name_token toks ->
  Str.contains_any non_person_words (Str.lower (Str.join " " toks)) = false ->
  Str.any_char Str.is_upper (Str.join " " toks) = true ->
  length (Str.join " " toks) <= 50 ->
  is_person_name (Str.join " " toks) = true.
Proof.
  intros Hn Htok Hdeny Hup H50.
  assert (Hsplit : Str.split (Str.join " " toks) = toks).
  { destruct toks as [|w ws]; [simpl in Hn; lia|].
    apply split_join_words. eapply Forall_impl; [|exact Htok].
    intros a [Ha Hl]. split; [exact Ha|]. intros ->. simpl in Hl. lia. }
  assert (H2 : 2 <= length (Str.join " " toks)).
  { apply length_join_ge; [lia|]. eapply Forall_impl; [|exact Htok].
    intros a [_ Hl]. lia. }
  apply is_person_name_true. rewrite Hsplit.
  repeat split; try assumption; try lia.
  - apply name_pattern_match. split.
    + intros He. rewrite He in H2. simpl in H2. lia.
    + apply all_char_join_words. eapply Forall_impl; [|exact Htok].
      intros a [Ha _]. exact Ha.
  - apply forallb_forall. intros w Hw.
    rewrite Forall_forall in Htok. destruct (Htok w Hw) as [_ [Hlo Hhi]].
    unfold word_ok. apply negb_true_iff, orb_false_iff.
    split; [apply Nat.ltb_ge|apply Nat.ltb_ge]; lia.
Qed.

Lemma bad_character_rejected (s : string) :
  Str.all_char name_cls s = false -> is_person_name s = false.
Proof.
  intros H. destruct (is_person_name s) eqn:Hp; [|reflexivity].
  apply is_person_name_true in Hp as (_ & _ & _ & Hm & _).
  apply name_pattern_match in Hm as [_ Hm]. congruence.
Qed.

(** ** The length bound of [is_person_name] *)

(** C3, as stated, fails: "Maximiliano Bartholomew Wolfeschlegelstein
    Vanderbilt" is made of 4 space-separated alphabetic tokens of 10 to 18
    letters, contains no denylisted word, has capital letters and matches the
    pattern, but it is 53 characters long and [is_person_name] rejects every
    text longer than 50. *)
Lemma long_name_rejected :
  2 <= List.length long_name_tokens <= 4 /\
  Forall name_token long_name_tokens /\
  Str.contains_any non_person_words
    (Str.lower (Str.join " " long_name_tokens)) = false /\
  Str.any_char Str.is_upper (Str.join " " long_name_tokens) = true /\
  Re.re_match name_pattern (Str.join " " long_name_tokens) = true /\
  length (Str.join " " long_name_tokens) = 53 /\
  is_person_name (Str.join " " long_name_tokens) = false.
Proof.
  split; [simpl; lia|]. split.
  { unfold long_name_tokens.
    repeat constructor; simpl; lia. }
  repeat split; vm_compute; reflexivity.
Qed.

(** C3, amended: a text of at most 50 characters made of 2 to 4 alphabetic
    tokens of 2 to 20 letters each, joined by single spaces, with no
    denylisted word in its lowercased form and at least one capital letter,
    passes [is_person_name]; and a text that contains a digit, an underscore
    or (in any letter case) a denylisted word is rejected. *)
Theorem is_person_name_spec :
  (forall toks : list string,
      2 <= List.length toks <= 4 ->
      Forall name_token toks ->
      Str.contains_any non_person_words
        (Str.lower (Str.join " " toks)) = false ->
      Str.any_char Str.is_upper (Str.join " " toks) = true ->
      length (Str.join " " toks) <= 50 ->
      is_person_name (Str.join " " toks) = true) /\
  (forall s : string,
      Str.any_char Str.is_digit s = true \/
      Str.any_char (Ascii.eqb "_") s = true \/
      (exists w, In w non_person_words /\
                 (Str.contains w s = true \/
                  Str.contains w (Str.lower s) = true)) ->
      is_person_name s = false).
Proof.
  split; [exact name_tokens_accepted|].
  intros s [Hd|[Hu|(w & Hin & Hc)]].
  - apply bad_character_rejected.
    apply (any_char_all_char Str.is_digit); [exact digit_not_name_cls|exact Hd].
  - apply bad_character_rejected.
    apply (any_char_all_char (Ascii.eqb "_"));
      [exact underscore_not_name_cls|exact Hu].
  - apply (denylisted_rejected s w Hin).
    destruct Hc as [Hc|Hc]; [|exact Hc].
    apply contains_lower in Hc.
    rewrite (non_person_words_lowercase w Hin) in Hc. exact Hc.
Qed.

(** "Jane Smith" is accepted; "Agent 47", "jane_smith" and "Recovery
    Team" are rejected. *)
Lemma is_person_name_spec_witness :
  is_person_name "Jane Smith" = true /\
  is_person_name "Agent 47" = false /\
  is_person_name "jane_smith" = false /\
  is_person_name "Recovery Team" = false.
Proof.
  destruct is_person_name_spec as [Hyes Hno].
  split; [|split; [|split]].
  - apply (Hyes ["Jane"; "Smith"]).
    + simpl; lia.
    + repeat constructor; simpl; lia.
    + vm_compute; reflexivity.
    + vm_compute; reflexivity.
    + simpl; lia.
  - apply Hno. left. vm_compute; reflexivity.
  - apply Hno. right; left. vm_compute; reflexivity.
  - apply Hno. right; right. exists "team". split.
    + unfold non_person_words; simpl; tauto.
    + right. vm_compute; reflexivity.
Defined.

(** ** The row loop of [extract_contact_table] *)

Lemma valid_name_test (c : contact) :
  negb (Str.is_empty (name c)) && is_person_name (name c) = true ->
  valid_name c.
Proof.
  rewrite andb_true_iff, negb_true_iff. intros [He Hp]. split; [|exact Hp].
  intros H. rewrite H in He. discriminate.
Qed.

(** Every record of the result was in [acc] or was built by [map_row] from a
    row of [rows] and passed the test of line 208. *)
Lemma extract_rows_elements (headers : list string) (rows : table) :
  forall acc cs,
    extract_rows headers rows acc = Ok cs ->
    forall c, In c cs ->
      In c acc \/
      exists row, In row rows /\
                  map_row headers (List.length row) 0 row (new_contact row)
                  = Ok c /\
                  valid_name c.
Proof.
  induction rows as [|row rest IH]; intros acc cs H c Hin; simpl in H.
  - injection H as <-. auto.
  - assert (Hrest : forall acc',
               extract_rows headers rest acc' = Ok cs ->
               (forall x, In x acc' -> In x acc \/
                  (map_row headers (List.length row) 0 row (new_contact row)
                   = Ok x /\ valid_name x)) ->
               In c acc \/
               exists r, In r (row :: rest) /\
                         map_row headers (List.length r) 0 r (new_contact r)
                         = Ok c /\ valid_name c).
    { intros acc' H' Hacc. destruct (IH _ _ H' c Hin) as [Hc|(r & Hr & Hm)].
      - destruct (Hacc c Hc) as [Ha|Hb]; [auto|].
        right. exists row. split; [left; reflexivity|exact Hb].
      - right. exists r. split; [right; exact Hr|exact Hm]. }
    destruct (negb (existsb _ row)); [apply (Hrest acc H); auto|].
    destruct row as [|cell cells]; [apply (Hrest acc H); auto|].
    cbn [is_nil getitem nth_error bind] in H.
    destruct (is_person_name (Str.strip cell)); cbn [negb] in H;
      [|apply (Hrest acc H); auto].
    destruct (map_row headers (List.length (cell :: cells)) 0 (cell :: cells)
                (new_contact (cell :: cells))) as [x|e] eqn:Hx;
      [|discriminate].
    cbn [bind] in H.
    destruct (negb (Str.is_empty (name x)) && is_person_name (name x))
      eqn:Hv; [|apply (Hrest acc H); auto].
    apply (Hrest _ H). intros y Hy. apply in_app_or in Hy as [Hy|[<-|[]]].
    + auto.
    + right. split; [reflexivity|apply valid_name_test; exact Hv].
Qed.

(** C4: [extract_contact_table] returns a list whose every record has a
    non-empty [name] that passes [is_person_name], and the list is empty for
    every table that [is_contact_table] rejects. *)
Theorem extracted_names_are_person_names (t : table) :
  exists cs,
    extract_contact_table t = Ok cs /\
    Forall (fun c => name c <> EmptyString /\ is_person_name (name c) = true)
           cs /\
    (is_contact_table t = Ok false -> cs = []).
Proof.
  destruct (extract_contact_table_returns t) as [cs Hcs].
  exists cs. split; [exact Hcs|]. split.
  - unfold extract_contact_table in Hcs.
    rewrite is_contact_table_value in Hcs. cbn [bind] in Hcs.
    match type of Hcs with
    | context [negb ?b] => destruct b
    end; cbn [negb] in Hcs; [|injection Hcs as <-; constructor].
    destruct (locate_headers t) as [[hs start]|e]; [|discriminate].
    cbn [bind] in Hcs. apply Forall_forall. intros c Hc.
    destruct (extract_rows_elements _ _ _ _ Hcs c Hc) as [[]|(r & _ & _ & Hv)].
    exact Hv.
  - intros Hf. unfold extract_contact_table in Hcs. rewrite Hf in Hcs.
    simpl in Hcs. congruence.
Qed.

(** ** The header row *)

Lemma find_header_row_found (rows : table) :
  forall (i : Z) (k : nat) (row : list string),
    nth_error rows k = Some row ->
    has_extract_keyword row = true ->
    (forall j r, j < k -> nth_error rows j = Some r ->
                 has_extract_keyword r = false) ->
    find_header_row i rows = (normalized row, (i + Z.of_nat k)%Z).
Proof.
  induction rows as [|r0 rest IH]; intros i k row Hk Hrow Hfirst.
  - destruct k; discriminate.
  - cbn [find_header_row]. destruct k as [|k].
    + injection Hk as ->. fold (has_extract_keyword row). rewrite Hrow.
      f_equal. lia.
    + fold (has_extract_keyword r0).
      rewrite (Hfirst 0 r0) by (simpl; auto; lia).
      rewrite (IH (i + 1)%Z k row Hk Hrow).
      * f_equal. lia.
      * intros j r Hj Hr. apply (Hfirst (S j) r); [lia|exact Hr].
Qed.

Lemma find_header_row_none (rows : table) :
  forall i : Z,
    (forall r, In r rows -> has_extract_keyword r = false) ->
    find_header_row i rows = ([], (-1)%Z).
Proof.
  induction rows as [|r0 rest IH]; intros i Hno; [reflexivity|].
  cbn [find_header_row]. fold (has_extract_keyword r0).
  rewrite (Hno r0) by (left; reflexivity).
  apply IH. intros r Hr. apply Hno. right. exact Hr.
Qed.

Lemma extract_accepted (t : table) (hs : list string) (start : nat) :
  is_contact_table t = Ok true ->
  locate_headers t = Ok (hs, start) ->
  extract_contact_table t = extract_rows hs (skipn start t) [].
Proof.
  intros Hacc Hloc. unfold extract_contact_table.
  rewrite Hacc, Hloc. reflexivity.
Qed.

Lemma locate_headers_found (t : table) (k : nat) (row : list string) :
  nth_error t k = Some row ->
  has_extract_keyword row = true ->
  (forall j r, j < k -> nth_error t j = Some r ->
               has_extract_keyword r = false) ->
  locate_headers t = Ok (normalized row, S k).
Proof.
  intros Hk Hrow Hfirst. unfold locate_headers.
  rewrite (find_header_row_found t 0 k row Hk Hrow Hfirst).
  replace (0 + Z.of_nat k =? -1)%Z with false by (symmetry; apply Z.eqb_neq; lia).
  cbn [bind].
  replace (0 <=? 0 + Z.of_nat k)%Z with true by (symmetry; apply Z.leb_le; lia).
  do 2 f_equal. lia.
Qed.

Lemma locate_headers_none (t : table) (row0 : list string) :
  (forall r, In r t -> has_extract_keyword r = false) ->
  nth_error t 0 = Some row0 ->
  locate_headers t
  = Ok (if 3 <=? List.length row0
        then positional_headers (List.length row0) else [], 0).
Proof.
  intros Hno H0. unfold locate_headers.
  rewrite (find_header_row_none t 0 Hno).
  cbn [Z.eqb Pos.eqb]. rewrite (getitem_Some _ _ _ H0). cbn [bind].
  destruct (3 <=? List.length row0); reflexivity.
Qed.

(** C5, as stated, fails: [role_table] is accepted and its row 0 is the first
    of the first 3 rows with a keyword of [is_contact_table] ("role", "team
    member"), yet [extract_contact_table] does not take it as the header row:
    its own search knows neither word, so the headers are the positional ones,
    row 0 is read as data, and "Austin" and "Dallas", which the headers of
    row 0 would have stored as locations, are dropped.  The search is not
    limited to the first 3 rows either: in [late_header_table] it stops at
    row 3, "Phone list", and only the row after it is parsed. *)
Lemma role_header_not_selected :
  is_contact_table role_table = Ok true /\
  nth_error role_table 0 = Some ["Team Member"; "Role"; "Location"] /\
  row_has_header_keyword ["Team Member"; "Role"; "Location"] /\
  locate_headers role_table = Ok (["name"; "title"; "contact_info"], 0) /\
  locate_headers role_table
  <> Ok (normalized ["Team Member"; "Role"; "Location"], 1) /\
  (exists c1 c2, extract_contact_table role_table = Ok [c1; c2] /\
                 location c1 = "" /\ location c2 = "") /\
  (exists c1 c2, extract_rows (normalized ["Team Member"; "Role"; "Location"])
                              (skipn 1 role_table) [] = Ok [c1; c2] /\
                 location c1 = "Austin" /\ location c2 = "Dallas") /\
  is_contact_table late_header_table = Ok true /\
  row_has_header_keyword ["Team Member"; "Role"; "Ext"] /\
  locate_headers late_header_table = Ok (["phone list"; ""; ""], 4) /\
  (exists c, extract_contact_table late_header_table = Ok [c] /\
             name c = "Mary Brown").
Proof.
  split; [vm_compute; reflexivity|].
  split; [reflexivity|].
  split; [exists "role"; split; [simpl; tauto|vm_compute; reflexivity]|].
  split; [vm_compute; reflexivity|].
  split; [vm_compute; discriminate|].
  split; [eexists; eexists; (split; [vm_compute; reflexivity|]);
          split; reflexivity|].
  split; [eexists; eexists; (split; [vm_compute; reflexivity|]);
          split; reflexivity|].
  split; [vm_compute; reflexivity|].
  split; [exists "role"; split; [simpl; tauto|vm_compute; reflexivity]|].
  split; [vm_compute; reflexivity|].
  eexists; split; [vm_compute; reflexivity|reflexivity].
Qed.

(** C5, amended: for every table accepted by [is_contact_table],
    [extract_contact_table] takes as header row the first row of the whole
    table whose lowercased space-joined text contains one of "name", "title",
    "phone", "mobile", "email", "contact"; the headers are that row's cells,
    lowercased and stripped, and only the rows after it are parsed as data
    rows. *)
Theorem header_row_selected (t : table) (k : nat) (row : list string) :
  is_contact_table t = Ok true ->
  nth_error t k = Some row ->
  Str.contains_any extract_header_keywords
    (Str.lower (Str.join " " row)) = true ->
  (forall j r, j < k -> nth_error t j = Some r ->
     Str.contains_any extract_header_keywords
       (Str.lower (Str.join " " r)) = false) ->
  locate_headers t
  = Ok (map (fun col => Str.strip (Str.lower col)) row, S k) /\
  extract_contact_table t
  = extract_rows (map (fun col => Str.strip (Str.lower col)) row)
                 (skipn (S k) t) [].
Proof.
  intros Hacc Hk Hrow Hfirst.
  pose proof (locate_headers_found t k row Hk Hrow Hfirst) as Hloc.
  split; [exact Hloc|]. apply extract_accepted; assumption.
Qed.

(** On the table of scenario A the header row is row 0. *)
Lemma header_row_selected_witness :
  locate_headers scenario_A = Ok (["name"; "title"; "phone"], 1) /\
  extract_contact_table scenario_A
  = extract_rows ["name"; "title"; "phone"] (skipn 1 scenario_A) [].
Proof.
  apply (header_row_selected scenario_A 0 ["Name"; "Title"; "Phone"]).
  - vm_compute; reflexivity.
  - reflexivity.
  - vm_compute; reflexivity.
  - intros j r Hj. lia.
Defined.

(** ** Positional headers *)

Lemma positional_headers_spec (n : nat) :
  3 <= n -> positional_headers n = spec_positional_headers n.
Proof.
  intros Hn. unfold positional_headers, spec_positional_headers.
  replace n with (3 + (n - 3)) at 2 by lia.
  rewrite seq_app, map_app. cbn [seq map Nat.add app]. do 3 f_equal.
  apply map_ext_in. intros i Hi. apply in_seq in Hi.
  destruct i as [|[|[|i]]]; [lia|lia|lia|reflexivity].
Qed.

Lemma extract_rows_no_headers (rows : table) :
  forall acc, extract_rows [] rows acc = Ok acc.
Proof.
  induction rows as [|row rest IH]; intros acc; simpl; [reflexivity|].
  destruct (negb (existsb _ row)); [apply IH|].
  destruct row as [|cell cells]; simpl; [apply IH|].
  destruct (is_person_name (Str.strip cell)); simpl; apply IH.
Qed.

(** C6, as stated, fails: [narrow_role_table] is accepted and none of its
    rows qualifies as a header row, but its row 0 has 2 columns, fewer than
    the 3 that line 112 asks for: the header list stays empty instead of
    being ["name", "title"], and no record is produced, where the positional
    headers would have given two. *)
Lemma narrow_table_gets_no_headers :
  is_contact_table narrow_role_table = Ok true /\
  (forall r, In r narrow_role_table -> has_extract_keyword r = false) /\
  spec_positional_headers 2 = ["name"; "title"] /\
  locate_headers narrow_role_table = Ok ([], 0) /\
  extract_contact_table narrow_role_table = Ok [] /\
  (exists c1 c2, extract_rows (spec_positional_headers 2)
                              narrow_role_table [] = Ok [c1; c2]).
Proof.
  split; [vm_compute; reflexivity|].
  split; [intros r [<-|[<-|[<-|[]]]]; vm_compute; reflexivity|].
  split; [reflexivity|].
  split; [vm_compute; reflexivity|].
  split; [vm_compute; reflexivity|].
  eexists; eexists; vm_compute; reflexivity.
Qed.

(** With fewer than 3 columns in row 0 the header list stays empty and the
    row loop stores nothing. *)
Lemma narrow_first_row_gives_nothing (t : table) (row0 : list string) :
  is_contact_table t = Ok true ->
  (forall r, In r t -> has_extract_keyword r = false) ->
  nth_error t 0 = Some row0 ->
  List.length row0 < 3 ->
  locate_headers t = Ok ([], 0) /\ extract_contact_table t = Ok [].
Proof.
  intros Hacc Hno H0 Hlen.
  pose proof (locate_headers_none t row0 Hno H0) as Hloc.
  replace (3 <=? List.length row0) with false in Hloc
    by (symmetry; apply Nat.leb_gt; exact Hlen).
  split; [exact Hloc|].
  rewrite (extract_accepted t _ 0 Hacc Hloc). apply extract_rows_no_headers.
Qed.

(** C6, amended: for every table accepted by [is_contact_table] in which no
    row contains one of the six header keywords of the extractor and whose
    row 0 has at least 3 columns, the headers are ["name", "title",
    "contact_info", "field_3", "field_4", ...], one per column of row 0, and
    every row, row 0 included, is parsed as a data row. *)
Theorem positional_headers_synthesized (t : table) (row0 : list string) :
  is_contact_table t = Ok true ->
  (forall r, In r t ->
     Str.contains_any extract_header_keywords
       (Str.lower (Str.join " " r)) = false) ->
  nth_error t 0 = Some row0 ->
  3 <= List.length row0 ->
  locate_headers t = Ok (spec_positional_headers (List.length row0), 0) /\
  extract_contact_table t
  = extract_rows (spec_positional_headers (List.length row0)) t [].
Proof.
  intros Hacc Hno H0 Hlen.
  pose proof (locate_headers_none t row0 Hno H0) as Hloc.
  replace (3 <=? List.length row0) with true in Hloc
    by (symmetry; apply Nat.leb_le; exact Hlen).
  rewrite positional_headers_spec in Hloc by exact Hlen.
  split; [exact Hloc|]. apply (extract_accepted t _ 0 Hacc Hloc).
Qed.

(** The four positional headers of [wide_role_table]. *)
Lemma positional_headers_synthesized_witness :
  locate_headers wide_role_table
  = Ok (["name"; "title"; "contact_info"; "field_3"], 0) /\
  extract_contact_table wide_role_table
  = extract_rows ["name"; "title"; "contact_info"; "field_3"]
                 wide_role_table [].
Proof.
  apply (positional_headers_synthesized wide_role_table
           ["Role"; "Dept"; "Ext"; "Desk"]).
  - vm_compute; reflexivity.
  - intros r [<-|[<-|[<-|[]]]]; vm_compute; reflexivity.
  - reflexivity.
  - simpl; lia.
Defined.

(** ** Phone numbers under an unrecognized header *)

Lemma map_row_step (headers : list string) (row_len i : nat)
    (cell header : string) (rest : list string) (c : contact) :
  nth_error headers i = Some header ->
  Str.is_empty (Str.strip cell) = false ->
  map_row headers row_len i (cell :: rest) c
  = map_row headers row_len (S i) rest
            (process_cell row_len i header (Str.strip cell) c).
Proof.
  intros Hh Hne. cbn [map_row].
  assert (Hi : i < List.length headers)
    by (apply nth_error_Some; congruence).
  replace (List.length headers <=? i) with false
    by (symmetry; apply Nat.leb_gt; exact Hi).
  rewrite Hne.
  replace (i <? List.length headers) with true
    by (symmetry; apply Nat.ltb_lt; exact Hi).
  rewrite (getitem_Some _ _ _ Hh). reflexivity.
Qed.

Lemma unrecognized_header_branch (row_len i : nat) (header cell : string)
    (emails phones : list string) (c : contact) :
  2 <= i ->
  recognized_header header = false ->
  map_field row_len i header cell emails phones c
  = if negb (is_nil emails) then extend_email c emails
    else if negb (is_nil phones) then
      if Str.contains "mobile" (Str.lower cell) || (0 <? List.length (phone c))
      then extend_mobile c phones
      else extend_phone c phones
    else if (Z.of_nat i =? Z.of_nat row_len - 1)%Z && (10 <? length cell) then
      if Str.is_empty (location c)
         && Str.contains_any place_words (Str.lower cell)
      then set_location c cell
      else if Str.is_empty (description c) then set_description c cell
      else c
    else c.
Proof.
  intros Hi Hh. unfold recognized_header, Str.contains_any, field_keywords in Hh.
  cbn [existsb] in Hh.
  repeat (apply orb_false_iff in Hh as [? Hh]).
  unfold map_field.
  destruct i as [|[|i]]; [lia|lia|]. cbn [Nat.eqb orb].
  repeat match goal with
         | H : Str.contains _ header = false |- _ => rewrite H; clear H
         end.
  reflexivity.
Qed.

(** C8, as stated, fails: under the header "fax", which no keyword
    recognizes, the cell "mobile 555-123-4567" holds a phone number and no
    email address, the phone list of the record is still empty, and yet the
    number goes to the mobile list: line 197 also sends it there when the
    cell's text contains "mobile". *)
Lemma mobile_word_fills_mobile_first :
  recognized_header "fax" = false /\
  Re.findall email_pattern "mobile 555-123-4567" = [] /\
  find_phones "mobile 555-123-4567" = ["555-123-4567"] /\
  extract_contact_table fax_table
  = Ok [ {| type := "team_member"; name := "Jane Smith"; title := "Lead";
            phone := []; mobile := ["555-123-4567"]; email := [];
            location := ""; description := "";
            raw_data := ["Jane Smith"; "Lead"; "mobile 555-123-4567"] |};
         {| type := "team_member"; name := "Robert Jones";
            title := "Analyst"; phone := ["555-987-6543"]; mobile := [];
            email := []; location := ""; description := "";
            raw_data := ["Robert Jones"; "Analyst"; "555-987-6543"] |} ].
Proof. repeat split; vm_compute; reflexivity. Qed.

(** C8, amended: for a data row cell at column 2 or later whose header
    contains none of the recognized header keywords and whose stripped text
    has a phone-pattern match and no email match, the extracted phone numbers
    are appended to the mobile list exactly when the cell's lowercased text
    contains "mobile" or the phone list already has an entry, and to the
    phone list otherwise. *)
Theorem unlabelled_phone_cell (headers : list string) (row_len i : nat)
    (cell header : string) (rest : list string) (c : contact) :
  nth_error headers i = Some header ->
  2 <= i ->
  recognized_header header = false ->
  Re.findall email_pattern (Str.strip cell) = [] ->
  find_phones (Str.strip cell) <> [] ->
  map_row headers row_len i (cell :: rest) c
  = map_row headers row_len (S i) rest
      (if Str.contains "mobile" (Str.lower (Str.strip cell))
          || (0 <? List.length (phone c))
       then extend_mobile c (find_phones (Str.strip cell))
       else extend_phone c (find_phones (Str.strip cell))).
Proof.
  intros Hh Hi Hrec Hmail Hph.
  assert (Hne : Str.is_empty (Str.strip cell) = false).
  { destruct (Str.is_empty (Str.strip cell)) eqn:He; [|reflexivity].
    apply is_empty_true in He. rewrite He in Hph.
    exfalso. apply Hph. vm_compute. reflexivity. }
  rewrite (map_row_step headers row_len i cell header rest c Hh Hne).
  f_equal. unfold process_cell. rewrite Hmail. cbn [is_nil negb].
  rewrite (unrecognized_header_branch _ _ _ _ _ _ _ Hi Hrec).
  cbn [is_nil negb].
  destruct (find_phones (Str.strip cell)); [congruence|reflexivity].
Qed.

(** Under "fax" a first number goes to [phone], a second one to [mobile]. *)
Lemma unlabelled_phone_cell_witness :
  let c := set_title (set_name (new_contact []) "Jane Smith") "Lead" in
  map_row ["name"; "title"; "fax"] 3 2 ["555-123-4567"] c
  = Ok (extend_phone c ["555-123-4567"]) /\
  map_row ["name"; "title"; "fax"] 3 2 ["555-123-4567"]
          (extend_phone c ["555-000-0000"])
  = Ok (extend_mobile (extend_phone c ["555-000-0000"]) ["555-123-4567"]).
Proof.
  split.
  - apply (unlabelled_phone_cell ["name"; "title"; "fax"] 3 2
             "555-123-4567" "fax" []).
    + reflexivity.
    + lia.
    + vm_compute; reflexivity.
    + vm_compute; reflexivity.
    + vm_compute; discriminate.
  - apply (unlabelled_phone_cell ["name"; "title"; "fax"] 3 2
             "555-123-4567" "fax" []).
    + reflexivity.
    + lia.
    + vm_compute; reflexivity.
    + vm_compute; reflexivity.
    + vm_compute; discriminate.
Defined.

(** ** Email addresses *)

Lemma map_field_email (row_len i : nat) (header cell : string)
    (emails phones : list string) (c : contact) :
  raw_data (map_field row_len i header cell emails phones c) = raw_data c /\
  incl (email c) (email (map_field row_len i header cell emails phones c)).
Proof.
  unfold map_field.
  repeat case_if; cbn; (split; [reflexivity|]);
    try apply incl_refl; apply incl_appl, incl_refl.
Qed.

Lemma process_cell_email (row_len i : nat) (header cell : string)
    (c : contact) :
  raw_data (process_cell row_len i header cell c) = raw_data c /\
  incl (email c) (email (process_cell row_len i header cell c)) /\
  incl (Re.findall email_pattern cell)
       (email (process_cell row_len i header cell c)).
Proof.
  unfold process_cell.
  set (emails := Re.findall email_pattern cell).
  set (c1 := if negb (is_nil emails) then extend_email c emails else c).
  destruct (map_field_email row_len i header cell emails (find_phones cell) c1)
    as [Hraw Hincl].
  assert (H1 : raw_data c1 = raw_data c /\ incl (email c) (email c1)
               /\ incl emails (email c1)).
  { subst c1. destruct emails as [|e es]; cbn.
    - repeat split; [apply incl_refl|intros x []].
    - repeat split; [apply incl_appl, incl_refl|apply incl_appr, incl_refl]. }
  destruct H1 as (Hr1 & Hi1 & He1).
  split; [congruence|].
  split; eapply incl_tran; eassumption.
Qed.

Lemma map_row_emails (headers : list string) (row_len : nat)
    (cells : list string) :
  forall i c c',
    map_row headers row_len i cells c = Ok c' ->
    raw_data c' = raw_data c /\
    incl (email c) (email c') /\
    forall k cell e,
      nth_error cells k = Some cell ->
      i + k < List.length headers ->
      In e (Re.findall email_pattern (Str.strip cell)) ->
      In e (email c').
Proof.
  induction cells as [|cell0 rest IH]; intros i c c' H; cbn [map_row] in H.
  - injection H as <-. repeat split; [apply incl_refl|].
    intros k cell e Hk. destruct k; discriminate.
  - destruct (List.length headers <=? i) eqn:Hi.
    { injection H as <-. apply Nat.leb_le in Hi.
      repeat split; [apply incl_refl|]. intros k cell e _ Hlt. lia. }
    destruct (Str.is_empty (Str.strip cell0)) eqn:He.
    { destruct (IH _ _ _ H) as (Hraw & Hincl & Hcells).
      repeat split; [exact Hraw|exact Hincl|].
      intros [|k] cell e Hk Hlt Hin; cbn in Hk.
      - injection Hk as <-. apply is_empty_true in He. rewrite He in Hin.
        vm_compute in Hin. destruct Hin.
      - apply (Hcells k cell e Hk); [lia|exact Hin]. }
    destruct (if i <? List.length headers then getitem headers i
              else Ok (append "field_" (Str.of_nat i))) as [header|x];
      [|discriminate].
    cbn [bind] in H.
    destruct (IH _ _ _ H) as (Hraw & Hincl & Hcells).
    destruct (process_cell_email row_len i header (Str.strip cell0) c)
      as (Hr & Hi1 & He1).
    split; [congruence|]. split; [eapply incl_tran; eassumption|].
    intros [|k] cell e Hk Hlt Hin; cbn in Hk.
    + injection Hk as <-. apply Hincl, He1, Hin.
    + apply (Hcells k cell e Hk); [lia|exact Hin].
Qed.

(** C10, as stated, fails: the row ["Jane Smith", "Lead", "jane@x.com"] of
    [ragged_table] becomes a record and its third cell is non-empty and
    matches the email pattern, but the header row has two columns and line
    143 leaves the cell loop at the first cell without a header: the
    record's email list is empty. *)
Lemma email_beyond_headers_dropped :
  locate_headers ragged_table = Ok (["name"; "title"], 1) /\
  Re.findall email_pattern (Str.strip "jane@x.com") = ["jane@x.com"] /\
  extract_contact_table ragged_table
  = Ok [ {| type := "team_member"; name := "Jane Smith"; title := "Lead";
            phone := []; mobile := []; email := [];
            location := ""; description := "";
            raw_data := ["Jane Smith"; "Lead"; "jane@x.com"] |};
         {| type := "team_member"; name := "Robert Jones";
            title := "Analyst"; phone := []; mobile := []; email := [];
            location := ""; description := "";
            raw_data := ["Robert Jones"; "Analyst"] |} ].
Proof. repeat split; vm_compute; reflexivity. Qed.

(** C10, amended: for every data row that [extract_contact_table] turns into
    a record, every match of the email pattern in every cell of that row
    whose index is below the number of column headers is in the record's
    email list, whatever the cell's header is; the matches are appended
    before the header-based mapping of the cell runs. *)
Theorem emails_collected (t : table) (hs : list string) (start : nat)
    (cs : list contact) (c : contact) (i : nat) (cell e : string) :
  locate_headers t = Ok (hs, start) ->
  extract_contact_table t = Ok cs ->
  In c cs ->
  i < List.length hs ->
  nth_error (raw_data c) i = Some cell ->
  In e (Re.findall email_pattern (Str.strip cell)) ->
  In (raw_data c) (skipn start t) /\
  In e (email c) /\
  (forall row_len j header text c0,
      process_cell row_len j header text c0
      = map_field row_len j header text
          (Re.findall email_pattern text) (find_phones text)
          (if negb (is_nil (Re.findall email_pattern text))
           then extend_email c0 (Re.findall email_pattern text) else c0)).
Proof.
  intros Hloc Hcs Hc Hi Hcell He.
  unfold extract_contact_table in Hcs.
  destruct (is_contact_table t) as [[|]|x]; cbn [bind negb] in Hcs;
    [|injection Hcs as <-; destruct Hc|discriminate].
  rewrite Hloc in Hcs. cbn [bind] in Hcs.
  destruct (extract_rows_elements _ _ _ _ Hcs c Hc)
    as [[]|(row & Hrow & Hmap & _)].
  destruct (map_row_emails _ _ _ _ _ _ Hmap) as (Hraw & _ & Hcells).
  cbn [raw_data new_contact] in Hraw. rewrite Hraw in *.
  split; [exact Hrow|]. split; [|reflexivity].
  apply (Hcells i cell e Hcell); [simpl; exact Hi|exact He].
Qed.

(** The addresses of [mail_table] reach the email lists from the title and
    the phone columns. *)
Lemma emails_collected_witness :
  extract_contact_table mail_table = Ok mail_table_contacts /\
  In "jane@x.com" (email (nth 0 mail_table_contacts (new_contact []))) /\
  In "bob@x.org" (email (nth 1 mail_table_contacts (new_contact []))).
Proof.
  assert (Hrun : extract_contact_table mail_table = Ok mail_table_contacts)
    by (vm_compute; reflexivity).
  split; [exact Hrun|]. split.
  - apply (emails_collected mail_table ["name"; "title"; "phone"] 1
             mail_table_contacts _ 1 "Lead jane@x.com" "jane@x.com").
    + vm_compute; reflexivity.
    + exact Hrun.
    + left; reflexivity.
    + simpl; lia.
    + reflexivity.
    + vm_compute. left; reflexivity.
  - apply (emails_collected mail_table ["name"; "title"; "phone"] 1
             mail_table_contacts _ 2 "bob@x.org" "bob@x.org").
    + vm_compute; reflexivity.
    + exact Hrun.
    + right; left; reflexivity.
    + simpl; lia.
    + reflexivity.
    + vm_compute. left; reflexivity.
Defined.

(* ================================================================= *)
(** * Further properties of the extractor *)

(** ** Records and rows *)

Lemma subsequence_empty {A : Type} (l : list A) : subsequence [] l.
Proof. induction l; constructor; assumption. Qed.

Lemma subsequence_length {A : Type} (l l' : list A) :
  subsequence l l' -> List.length l <= List.length l'.
Proof. induction 1; simpl; lia. Qed.

Lemma map_field_type (row_len i : nat) (header cell : string)
    (emails phones : list string) (c : contact) :
  type (map_field row_len i header cell emails phones c) = type c.
Proof. unfold map_field. repeat case_if; reflexivity. Qed.

Lemma process_cell_type (row_len i : nat) (header cell : string)
    (c : contact) :
  type (process_cell row_len i header cell c) = type c.
Proof.
  unfold process_cell. rewrite map_field_type. case_if; reflexivity.
Qed.

Lemma map_row_type (headers : list string) (row_len : nat)
    (cells : list string) :
  forall i c c',
    map_row headers row_len i cells c = Ok c' -> type c' = type c.
Proof.
  induction cells as [|cell rest IH]; intros i c c' H; cbn [map_row] in H.
  - congruence.
  - destruct (List.length headers <=? i); [congruence|].
    destruct (Str.is_empty (Str.strip cell)); [exact (IH _ _ _ H)|].
    destruct (if i <? List.length headers then getitem headers i
              else Ok (append "field_" (Str.of_nat i))) as [header|x];
      [|discriminate].
    cbn [bind] in H. rewrite (IH _ _ _ H). apply process_cell_type.
Qed.

(** The shape of one turn of the row loop: the row is left out, or gives the
    record that [map_row] builds from it. *)
Lemma extract_rows_cons (headers : list string) (row : list string)
    (rest : table) (acc : list contact) :
  extract_rows headers (row :: rest) acc = extract_rows headers rest acc \/
  exists c, map_row headers (List.length row) 0 row (new_contact row) = Ok c
            /\ valid_name c
            /\ extract_rows headers (row :: rest) acc
               = extract_rows headers rest (acc ++ [c]).
Proof.
  cbn [extract_rows].
  destruct (negb (existsb _ row)); [left; reflexivity|].
  destruct row as [|cell cells]; [left; reflexivity|].
  cbn [is_nil getitem nth_error bind].
  destruct (is_person_name (Str.strip cell)); cbn [negb];
    [|left; reflexivity].
  destruct (map_row_returns headers (List.length (cell :: cells))
              (cell :: cells) 0 (new_contact (cell :: cells))) as [c Hc].
  rewrite Hc. cbn [bind].
  destruct (negb (Str.is_empty (name c)) && is_person_name (name c)) eqn:Hv;
    [|left; reflexivity].
  right. exists c. split; [reflexivity|].
  split; [apply valid_name_test; exact Hv|reflexivity].
Qed.

Lemma extract_rows_shape (headers : list string) (rows : table) :
  forall acc cs,
    extract_rows headers rows acc = Ok cs ->
    exists new,
      cs = acc ++ new /\
      subsequence (map raw_data new) rows /\
      Forall (fun c => type c = "team_member") new.
Proof.
  induction rows as [|row rest IH]; intros acc cs H.
  - injection H as <-. exists []. rewrite app_nil_r.
    repeat split; constructor.
  - destruct (extract_rows_cons headers row rest acc)
      as [Hskip|(c & Hc & _ & Htake)].
    + rewrite Hskip in H. destruct (IH _ _ H) as (new & -> & Hsub & Hty).
      exists new. repeat split; [apply subsequence_skip; exact Hsub|exact Hty].
    + rewrite Htake in H. destruct (IH _ _ H) as (new & -> & Hsub & Hty).
      exists (c :: new). rewrite <- app_assoc. split; [reflexivity|].
      destruct (map_row_emails _ _ _ _ _ _ Hc) as (Hraw & _).
      pose proof (map_row_type _ _ _ _ _ _ Hc) as Htype.
      cbn [raw_data type new_contact] in Hraw, Htype.
      split.
      * cbn [map]. rewrite Hraw. apply subsequence_take. exact Hsub.
      * constructor; assumption.
Qed.

(** X1: the records of [extract_contact_table] follow the rows: their
    [raw_data] are rows of the table after the header row, in the order of
    the table, each row giving at most one record; every record has the type
    "team_member"; and there are no more records than data rows. *)
Theorem records_follow_rows (t : table) (hs : list string) (start : nat)
    (cs : list contact) :
  locate_headers t = Ok (hs, start) ->
  extract_contact_table t = Ok cs ->
  subsequence (map raw_data cs) (skipn start t) /\
  Forall (fun c => type c = "team_member") cs /\
  List.length cs <= List.length t - start.
Proof.
  intros Hloc Hcs.
  assert (H : subsequence (map raw_data cs) (skipn start t) /\
              Forall (fun c => type c = "team_member") cs).
  { unfold extract_contact_table in Hcs.
    destruct (is_contact_table t) as [[|]|x]; cbn [bind negb] in Hcs;
      [|injection Hcs as <-; split; [apply subsequence_empty|constructor]
       |discriminate].
    rewrite Hloc in Hcs. cbn [bind] in Hcs.
    destruct (extract_rows_shape _ _ _ _ Hcs) as (new & -> & Hsub & Hty).
    split; assumption. }
  destruct H as [Hsub Hty]. repeat split; [exact Hsub|exact Hty|].
  apply subsequence_length in Hsub.
  rewrite length_map, length_skipn in Hsub. exact Hsub.
Qed.

Lemma records_follow_rows_witness :
  subsequence (map raw_data mail_table_contacts) (skipn 1 mail_table) /\
  Forall (fun c => type c = "team_member") mail_table_contacts /\
  List.length mail_table_contacts <= List.length mail_table - 1.
Proof.
  apply (records_follow_rows mail_table ["name"; "title"; "phone"]).
  - vm_compute; reflexivity.
  - vm_compute; reflexivity.
Defined.

(** ** Every person row gives a record *)

Lemma person_name_not_empty (s : string) :
  is_person_name s = true -> Str.is_empty s = false.
Proof.
  intros H. apply is_person_name_true in H as (Hlen & _).
  destruct s; [simpl in Hlen; lia|reflexivity].
Qed.

Lemma process_cell_name_kept (row_len i : nat) (header cell : string)
    (c : contact) :
  1 <= i -> Str.contains "name" header = false ->
  name (process_cell row_len i header cell c) = name c.
Proof.
  intros Hi Hh. unfold process_cell, map_field.
  destruct i as [|i]; [lia|]. cbn [Nat.eqb orb]. rewrite Hh.
  repeat case_if; reflexivity.
Qed.

Lemma process_cell_name_set (row_len : nat) (header cell : string)
    (c : contact) :
  name (process_cell row_len 0 header cell c) = cell.
Proof. unfold process_cell, map_field. reflexivity. Qed.

Lemma map_row_name_kept (headers : list string) (row_len : nat)
    (cells : list string) :
  forall i c c',
    1 <= i ->
    (forall j h, 1 <= j -> nth_error headers j = Some h ->
                 Str.contains "name" h = false) ->
    map_row headers row_len i cells c = Ok c' ->
    name c' = name c.
Proof.
  induction cells as [|cell rest IH]; intros i c c' Hi Hno H;
    cbn [map_row] in H.
  - congruence.
  - destruct (List.length headers <=? i) eqn:Hle; [congruence|].
    apply Nat.leb_gt in Hle.
    destruct (Str.is_empty (Str.strip cell));
      [apply (IH (S i)); [lia|exact Hno|exact H]|].
    replace (i <? List.length headers) with true in H
      by (symmetry; apply Nat.ltb_lt; exact Hle).
    unfold getitem in H.
    destruct (nth_error headers i) as [h|] eqn:Hh; [|discriminate].
    cbn [bind] in H. rewrite (IH (S i) _ _ ltac:(lia) Hno H).
    apply process_cell_name_kept; [exact Hi|exact (Hno i h Hi Hh)].
Qed.

Lemma map_row_names_first_cell (headers : list string) (row_len : nat)
    (cell : string) (cells : list string) (c c' : contact) :
  headers <> [] ->
  Str.is_empty (Str.strip cell) = false ->
  (forall j h, 1 <= j -> nth_error headers j = Some h ->
               Str.contains "name" h = false) ->
  map_row headers row_len 0 (cell :: cells) c = Ok c' ->
  name c' = Str.strip cell.
Proof.
  intros Hne Hcell Hno H.
  destruct headers as [|h0 hs]; [congruence|].
  rewrite (map_row_step (h0 :: hs) row_len 0 cell h0 cells c eq_refl Hcell)
    in H.
  rewrite (map_row_name_kept _ _ _ _ _ _ (le_n 1) Hno H).
  apply process_cell_name_set.
Qed.

Lemma blank_first_cell_is_no_person (cell : string) (cells : list string) :
  existsb (fun x => negb (Str.is_empty (Str.strip x))) (cell :: cells)
  = false ->
  is_person_name (Str.strip cell) = false.
Proof.
  cbn [existsb]. intros H. apply orb_false_iff in H as [H _].
  apply negb_false_iff, is_empty_true in H. rewrite H. reflexivity.
Qed.

Lemma extract_rows_complete (headers : list string) (rows : table) :
  headers <> [] ->
  (forall j h, 1 <= j -> nth_error headers j = Some h ->
               Str.contains "name" h = false) ->
  forall acc cs,
    extract_rows headers rows acc = Ok cs ->
    exists new,
      cs = acc ++ new /\
      map raw_data new = filter first_cell_is_person rows /\
      Forall (fun c => exists cell, nth_error (raw_data c) 0 = Some cell /\
                                    name c = Str.strip cell) new.
Proof.
  intros Hne Hno. induction rows as [|row rest IH]; intros acc cs H.
  - injection H as <-. exists []. rewrite app_nil_r.
    repeat split; constructor.
  - cbn [extract_rows] in H. cbn [filter].
    destruct (negb (existsb _ row)) eqn:Hblank.
    { destruct (IH _ _ H) as (new & -> & Hraw & Hnames).
      exists new. split; [reflexivity|]. split; [|exact Hnames].
      destruct row as [|cell cells]; [exact Hraw|].
      cbn [first_cell_is_person].
      apply negb_true_iff in Hblank.
      rewrite (blank_first_cell_is_no_person _ _ Hblank). exact Hraw. }
    destruct row as [|cell cells]; [discriminate|].
    cbn [is_nil getitem nth_error bind first_cell_is_person] in H |- *.
    destruct (is_person_name (Str.strip cell)) eqn:Hp; cbn [negb] in H.
    2:{ destruct (IH _ _ H) as (new & -> & Hraw & Hnames).
        exists new. auto. }
    destruct (map_row headers (List.length (cell :: cells)) 0 (cell :: cells)
                (new_contact (cell :: cells))) as [c|x] eqn:Hc;
      [|discriminate].
    cbn [bind] in H.
    pose proof (map_row_names_first_cell _ _ _ _ _ _ Hne
                  (person_name_not_empty _ Hp) Hno Hc) as Hname.
    destruct (map_row_emails _ _ _ _ _ _ Hc) as (Hrow & _).
    cbn [raw_data new_contact] in Hrow.
    rewrite Hname, Hp, (person_name_not_empty _ Hp) in H. cbn [negb andb] in H.
    destruct (IH _ _ H) as (new & -> & Hraw & Hnames).
    exists (c :: new). rewrite <- app_assoc. split; [reflexivity|].
    split; [cbn [map]; rewrite Hrow, Hraw; reflexivity|].
    constructor; [|exact Hnames].
    exists cell. rewrite Hrow. split; [reflexivity|exact Hname].
Qed.

(** X2: when the header list is not empty and no header after the first
    contains "name", every data row whose stripped first cell passes
    [is_person_name] gives exactly one record and no other row gives any:
    the [raw_data] of the records are these rows, in order, and the name of
    each record is the stripped first cell of its row. *)
Theorem person_rows_all_extracted (t : table) (hs : list string)
    (start : nat) (cs : list contact) :
  is_contact_table t = Ok true ->
  locate_headers t = Ok (hs, start) ->
  hs <> [] ->
  (forall j h, 1 <= j -> nth_error hs j = Some h ->
               Str.contains "name" h = false) ->
  extract_contact_table t = Ok cs ->
  map raw_data cs = filter first_cell_is_person (skipn start t) /\
  Forall (fun c => exists cell, nth_error (raw_data c) 0 = Some cell /\
                                name c = Str.strip cell) cs.
Proof.
  intros Hacc Hloc Hne Hno Hcs.
  rewrite (extract_accepted t hs start Hacc Hloc) in Hcs.
  destruct (extract_rows_complete hs _ Hne Hno _ _ Hcs)
    as (new & -> & Hraw & Hnames).
  split; assumption.
Qed.

Lemma person_rows_all_extracted_witness :
  map raw_data mail_table_contacts
  = filter first_cell_is_person (skipn 1 mail_table) /\
  Forall (fun c => exists cell, nth_error (raw_data c) 0 = Some cell /\
                                name c = Str.strip cell)
         mail_table_contacts.
Proof.
  apply (person_rows_all_extracted mail_table ["name"; "title"; "phone"]).
  - vm_compute; reflexivity.
  - vm_compute; reflexivity.
  - discriminate.
  - intros j h Hj Hh.
    destruct j as [|[|[|j]]]; [lia| | |destruct j; discriminate];
      injection Hh as <-; vm_compute; reflexivity.
  - vm_compute; reflexivity.
Defined.

(** ** What the gate and the cell loop look at *)

(** X3: [is_contact_table] looks at the first six rows only: the rows from
    index 6 on never change its answer. *)
Theorem first_six_rows_decide (t : table) :
  is_contact_table t = is_contact_table (firstn 6 t).
Proof.
  rewrite !is_contact_table_value. f_equal.
  assert (Hlen : (is_nil (firstn 6 t) || (List.length (firstn 6 t) <? 2))
                 = (is_nil t || (List.length t <? 2))).
  { destruct t as [|a [|b t]]; reflexivity. }
  assert (H3 : firstn 3 (firstn 6 t) = firstn 3 t)
    by (rewrite firstn_firstn; reflexivity).
  assert (H5 : firstn 5 (skipn 1 (firstn 6 t)) = firstn 5 (skipn 1 t)).
  { destruct t as [|a t]; [reflexivity|].
    change (skipn 1 (firstn 6 (a :: t))) with (firstn 5 t).
    rewrite firstn_firstn. reflexivity. }
  rewrite Hlen, H3, H5. reflexivity.
Qed.

(** X4: the cell loop stops at the first cell without a header: the cells
    of a row from the index [len(headers)] on never change the record that
    [map_row] builds (only [len(row)], kept here, still counts them). *)
Theorem cells_beyond_headers_ignored (headers : list string)
    (row_len : nat) (row : list string) (c : contact) :
  map_row headers row_len 0 row c
  = map_row headers row_len 0 (firstn (List.length headers) row) c.
Proof.
  assert (H : forall cells i c0,
             map_row headers row_len i cells c0
             = map_row headers row_len i
                       (firstn (List.length headers - i) cells) c0).
  { induction cells as [|cell rest IH]; intros i c0.
    - rewrite firstn_nil. reflexivity.
    - destruct (List.length headers <=? i) eqn:Hle.
      + apply Nat.leb_le in Hle as Hle'.
        replace (List.length headers - i) with 0 by lia.
        cbn [firstn map_row]. rewrite Hle. reflexivity.
      + apply Nat.leb_gt in Hle as Hlt.
        replace (List.length headers - i)
          with (S (List.length headers - S i)) by lia.
        cbn [firstn map_row]. rewrite Hle.
        destruct (Str.is_empty (Str.strip cell)); [apply IH|].
        destruct (if i <? List.length headers then getitem headers i
                  else Ok (append "field_" (Str.of_nat i))) as [h|x];
          [|reflexivity].
        cbn [bind]. apply IH. }
  rewrite (H row 0 c), Nat.sub_0_r. reflexivity.
Qed.

(** X5: at column 2 or later, under a header that contains none of the
    recognized keywords, a cell with email matches has them appended twice
    to the email list: once before the mapping (line 156) and once by the
    last branch of the mapping (line 195). *)
Theorem unlabelled_email_cell_doubles (headers : list string)
    (row_len i : nat) (cell header : string) (rest : list string)
    (c : contact) :
  nth_error headers i = Some header ->
  2 <= i ->
  recognized_header header = false ->
  Re.findall email_pattern (Str.strip cell) <> [] ->
  map_row headers row_len i (cell :: rest) c
  = map_row headers row_len (S i) rest
      (set_email c (email c
                    ++ Re.findall email_pattern (Str.strip cell)
                    ++ Re.findall email_pattern (Str.strip cell))).
Proof.
  intros Hh Hi Hrec Hmail.
  assert (Hne : Str.is_empty (Str.strip cell) = false).
  { destruct (Str.is_empty (Str.strip cell)) eqn:He; [|reflexivity].
    apply is_empty_true in He. rewrite He in Hmail.
    exfalso. apply Hmail. vm_compute. reflexivity. }
  rewrite (map_row_step headers row_len i cell header rest c Hh Hne).
  f_equal. unfold process_cell.
  rewrite (unrecognized_header_branch _ _ _ _ _ _ _ Hi Hrec).
  destruct (Re.findall email_pattern (Str.strip cell)) as [|e es];
    [congruence|].
  cbn [is_nil negb]. unfold extend_email, set_email. cbn.
  rewrite <- app_assoc. reflexivity.
Qed.

Lemma unlabelled_email_cell_doubles_witness :
  map_row ["name"; "title"; "other"] 3 2 ["bob@x.org"]
          (set_title (set_name (new_contact []) "Robert Jones") "Analyst")
  = Ok {| type := "team_member"; name := "Robert Jones"; title := "Analyst";
          phone := []; mobile := []; email := ["bob@x.org"; "bob@x.org"];
          location := ""; description := ""; raw_data := [] |}.
Proof.
  apply (unlabelled_email_cell_doubles ["name"; "title"; "other"] 3 2
           "bob@x.org" "other" []).
  - reflexivity.
  - lia.
  - vm_compute; reflexivity.
  - vm_compute; discriminate.
Defined.

(** ** Numbered rows *)

Lemma any_char_lstrip (p : ascii -> bool) (s : string) :
  (forall c, Str.isspace c = true -> p c = false) ->
  Str.any_char p (Str.lstrip s) = Str.any_char p s.
Proof.
  intros Hp. induction s as [|c s IH]; [reflexivity|].
  cbn [Str.lstrip]. destruct (Str.isspace c) eqn:Hc; [|reflexivity].
  cbn [Str.any_char]. rewrite (Hp c Hc), IH. reflexivity.
Qed.

Lemma any_char_rstrip (p : ascii -> bool) (s : string) :
  (forall c, Str.isspace c = true -> p c = false) ->
  Str.any_char p (Str.rstrip s) = Str.any_char p s.
Proof.
  intros Hp. induction s as [|c s IH]; [reflexivity|].
  cbn [Str.rstrip Str.any_char]. rewrite <- IH.
  destruct (Str.is_empty (Str.rstrip s)) eqn:He.
  - apply is_empty_true in He. rewrite He. cbn [andb Str.any_char].
    destruct (Str.isspace c) eqn:Hc; [|reflexivity].
    rewrite (Hp c Hc). reflexivity.
  - reflexivity.
Qed.

Lemma space_not_digit (c : ascii) :
  Str.isspace c = true -> Str.is_digit c = false.
Proof.
  revert c.
  assert (H : forall c, implb (Str.isspace c) (negb (Str.is_digit c)) = true)
    by (apply forall_ascii; vm_compute; reflexivity).
  intros c Hc. specialize (H c). rewrite Hc in H. simpl in H.
  apply negb_true_iff in H. exact H.
Qed.

Lemma digit_cell_is_no_person (cell : string) :
  Str.any_char Str.is_digit cell = true ->
  is_person_name (Str.strip cell) = false.
Proof.
  intros H. apply bad_character_rejected.
  apply (any_char_all_char Str.is_digit); [exact digit_not_name_cls|].
  unfold Str.strip.
  rewrite any_char_rstrip, any_char_lstrip by exact space_not_digit.
  exact H.
Qed.

Lemma filter_none {A : Type} (f : A -> bool) (l : list A) :
  (forall x, In x l -> f x = false) -> filter f l = [].
Proof.
  induction l as [|a l IH]; intros H; [reflexivity|].
  cbn [filter]. rewrite (H a) by (left; reflexivity).
  apply IH. intros x Hx. apply H. right. exact Hx.
Qed.

(** X6: a table whose rows 1 to 5 all have a digit in their first cell, as a
    table of numbered steps has, is rejected by [is_contact_table], and
    [extract_contact_table] returns no record for it. *)
Theorem numbered_rows_rejected (t : table) :
  (forall i row cell,
      1 <= i <= 5 -> nth_error t i = Some row ->
      nth_error row 0 = Some cell ->
      Str.any_char Str.is_digit cell = true) ->
  is_contact_table t = Ok false /\ extract_contact_table t = Ok [].
Proof.
  intros Hdigits.
  assert (H : is_contact_table t = Ok false).
  { rewrite is_contact_table_value. f_equal.
    rewrite filter_none; [apply andb_false_r|].
    intros row Hin. apply In_nth_error in Hin as [i Hi].
    apply nth_error_rows_1_to_5 in Hi as [Hlt Hi].
    destruct row as [|cell cells]; [reflexivity|].
    cbn [first_cell_is_person]. apply digit_cell_is_no_person.
    apply (Hdigits (S i) (cell :: cells) cell); [lia|exact Hi|reflexivity]. }
  split; [exact H|]. unfold extract_contact_table. rewrite H. reflexivity.
Qed.

Lemma numbered_rows_rejected_witness :
  is_contact_table [["Step"; "Contact"]; ["1"; "Notify manager"];
                    ["2"; "Escalate to IT"]] = Ok false /\
  extract_contact_table [["Step"; "Contact"]; ["1"; "Notify manager"];
                         ["2"; "Escalate to IT"]] = Ok [].
Proof.
  apply numbered_rows_rejected.
  intros i row cell Hi Hrow Hcell.
  destruct i as [|[|[|i]]]; [lia| | |destruct i; discriminate];
    injection Hrow as <-; injection Hcell as <-; reflexivity.
Defined.

(** ** The length of a person name *)

Lemma split_from_weight (s : string) :
  forall tok,
    words_weight (Str.split_from tok s) <= length tok + length s + 1.
Proof.
  induction s as [|c s IH]; intros tok; cbn [Str.split_from].
  - destruct tok; simpl; lia.
  - destruct (Str.isspace c).
    + destruct tok as [|x tok]; cbn [Str.is_empty words_weight].
      * specialize (IH EmptyString). simpl in *. lia.
      * specialize (IH EmptyString). simpl in *. lia.
    + specialize (IH (append tok (String c EmptyString))).
      rewrite length_append in IH. simpl in *. lia.
Qed.

Lemma words_weight_ge (words : list string) :
  forallb word_ok words = true ->
  3 * List.length words <= words_weight words.
Proof.
  induction words as [|w rest IH]; cbn [forallb words_weight List.length];
    [lia|].
  rewrite andb_true_iff. intros [Hw Hrest]. specialize (IH Hrest).
  unfold word_ok in Hw. apply negb_true_iff, orb_false_iff in Hw as [Hw _].
  apply Nat.ltb_ge in Hw. lia.
Qed.

(** X7: every text that [is_person_name] accepts has between 5 and 50
    characters. *)
Theorem person_name_length (text : string) :
  is_person_name text = true -> 5 <= length text <= 50.
Proof.
  intros H. apply is_person_name_true in H
    as (_ & _ & H50 & _ & _ & [Hn _] & Hwords).
  split; [|exact H50].
  pose proof (split_from_weight text EmptyString) as Hw.
  apply words_weight_ge in Hwords. fold (Str.split text) in Hw.
  simpl in Hw. lia.
Qed.

Lemma person_name_length_witness : 5 <= length "Jane Smith" <= 50.
Proof. apply person_name_length. vm_compute; reflexivity. Defined.

(* ================================================================= *)
(** * Properties of [extract_fixed_document_structure] *)

(** ** [strip] twice *)

Lemma rstrip_idempotent (s : string) :
  Str.rstrip (Str.rstrip s) = Str.rstrip s.
Proof.
  induction s as [|c s IH]; [reflexivity|]. cbn [Str.rstrip].
  destruct (Str.is_empty (Str.rstrip s) && Str.isspace c) eqn:H;
    [reflexivity|].
  cbn [Str.rstrip]. rewrite IH, H. reflexivity.
Qed.

Lemma lstrip_head (s : string) :
  Str.lstrip s = EmptyString \/
  exists c s', Str.lstrip s = String c s' /\ Str.isspace c = false.
Proof.
  induction s as [|c s IH]; [left; reflexivity|]. cbn [Str.lstrip].
  destruct (Str.isspace c) eqn:Hc; [exact IH|]. right. eauto.
Qed.

Lemma strip_idempotent (s : string) :
  Str.strip (Str.strip s) = Str.strip s.
Proof.
  unfold Str.strip.
  destruct (lstrip_head s) as [->|(c & s' & -> & Hc)]; [reflexivity|].
  cbn [Str.rstrip]. rewrite Hc, andb_false_r.
  cbn [Str.lstrip]. rewrite Hc.
  cbn [Str.rstrip]. rewrite Hc, andb_false_r, rstrip_idempotent.
  reflexivity.
Qed.

(** ** Section keys *)




(** ** Dictionaries *)

Section DictFacts.
Context {V : Type}.

Lemma dict_get_set_same (d : dict V) (k : string) (v : V) :
  dict_get (dict_set d k v) k = Some v.
Proof.
  induction d as [|[k' v'] d IH]; cbn [dict_set dict_get].
  - rewrite String.eqb_refl. reflexivity.
  - destruct (String.eqb k k') eqn:Hk; cbn [dict_get]; rewrite Hk;
      [reflexivity|exact IH].
Qed.

Lemma dict_get_set_other (d : dict V) (k k' : string) (v : V) :
  k' <> k -> dict_get (dict_set d k v) k' = dict_get d k'.
Proof.
  intros Hne. induction d as [|[k0 v0] d IH]; cbn [dict_set dict_get].
  - replace (String.eqb k' k) with false; [reflexivity|].
    symmetry. apply String.eqb_neq. exact Hne.
  - destruct (String.eqb k k0) eqn:Hk; cbn [dict_get].
    + apply String.eqb_eq in Hk. subst k0.
      replace (String.eqb k' k) with false; [reflexivity|].
      symmetry. apply String.eqb_neq. exact Hne.
    + rewrite IH. reflexivity.
Qed.

Lemma dict_set_In (d : dict V) (k k' : string) (v v' : V) :
  In (k', v') (dict_set d k v) -> (k' = k /\ v' = v) \/ In (k', v') d.
Proof.
  induction d as [|[k0 v0] d IH]; cbn [dict_set].
  - intros [[= <- <-]|[]]. auto.
  - destruct (String.eqb k k0) eqn:Hk.
    + apply String.eqb_eq in Hk. subst k0.
      intros [[= <- <-]|H]; [auto|right; right; exact H].
    + intros [H|H]; [right; left; exact H|].
      destruct (IH H) as [?|?]; [auto|right; right; assumption].
Qed.

Lemma dict_get_In (d : dict V) (k : string) (v : V) :
  dict_get d k = Some v -> In (k, v) d.
Proof.
  induction d as [|[k0 v0] d IH]; cbn [dict_get]; [discriminate|].
  destruct (String.eqb k k0) eqn:Hk.
  - apply String.eqb_eq in Hk. subst k0. intros [= ->]. left. reflexivity.
  - intros H. right. exact (IH H).
Qed.

Lemma dict_set_Forall (P : V -> Prop) (d : dict V) (k : string) (v : V) :
  Forall (fun kv => P (snd kv)) d -> P v ->
  Forall (fun kv => P (snd kv)) (dict_set d k v).
Proof.
  rewrite !Forall_forall. intros Hd Hv [k' v'] Hin.
  apply dict_set_In in Hin as [[_ ->]|Hin]; [exact Hv|exact (Hd _ Hin)].
Qed.

Lemma dict_get_Forall (P : V -> Prop) (d : dict V) (k : string) (v : V) :
  Forall (fun kv => P (snd kv)) d -> dict_get d k = Some v -> P v.
Proof.
  rewrite Forall_forall. intros Hd Hget.
  exact (Hd _ (dict_get_In _ _ _ Hget)).
Qed.
End DictFacts.

(** ** The second pass returns *)

Lemma prefix_append (a b : string) : prefix a (append a b) = true.
Proof.
  induction a as [|c a IH]; cbn [append prefix].
  - destruct b; reflexivity.
  - destruct (ascii_dec c c); [exact IH|congruence].
Qed.

Lemma extract_contact_table_ok (t : table) (cs : list contact) :
  extract_contact_table t = Ok cs -> Forall contact_ok cs.
Proof.
  intros Hcs. unfold extract_contact_table in Hcs.
  destruct (is_contact_table t) as [[|]|x]; cbn [bind negb] in Hcs;
    [|injection Hcs as <-; constructor|discriminate].
  destruct (locate_headers t) as [[hs start]|x]; [|discriminate].
  cbn [bind] in Hcs.
  destruct (extract_rows_shape _ _ _ _ Hcs) as (new & Hnew & _ & Hty).
  cbn [app] in Hnew. subst new.
  apply Forall_forall. intros c Hc. split.
  - destruct (extract_rows_elements _ _ _ _ Hcs c Hc)
      as [[]|(row & _ & _ & Hv)]. exact Hv.
  - rewrite Forall_forall in Hty. exact (Hty c Hc).
Qed.

(** What [place_contacts] does with a non-empty list of contacts: it sets
    one key, either a key that is there, whose section keeps its title and
    gets the contacts after its content, or a key that is new or generated,
    with a section made of the contacts. *)
Lemma place_contacts_shape (secs : dict section) (td : table)
    (target : option string) (cs : list contact) :
  cs <> [] ->
  exists key sec',
    place_contacts secs td target cs = Done (dict_set secs key sec') /\
    ((exists sec,
         dict_get secs key = Some sec /\
         sec' = mkSection (section_title sec) "contacts"
                          (section_content sec ++ map ContactItem cs)) \/
     ((dict_get secs key = None \/ prefix "team_contacts_" key = true) /\
      exists title,
        sec' = mkSection (Some title) "contacts" (map ContactItem cs))).
Proof.
  intros Hcs. unfold place_contacts.
  assert (Hnil : negb (is_nil cs) = true) by (destruct cs; [congruence|reflexivity]).
  rewrite Hnil.
  destruct target as [key|]; cbn [truthy_opt].
  - destruct (Text.truthy key) eqn:Ht; cbn [andb].
    + unfold dict_mem. destruct (dict_get secs key) as [sec|] eqn:Hget.
      * exists key. eexists. split; [reflexivity|]. left. exists sec.
        split; [exact Hget|]. destruct (section_content sec); reflexivity.
      * exists key. eexists. split; [reflexivity|]. right.
        split; [left; exact Hget|]. eexists. reflexivity.
    + eexists. eexists. split; [reflexivity|]. right.
      split; [right; apply prefix_append|]. eexists. reflexivity.
  - eexists. eexists. split; [reflexivity|]. right.
    split; [right; apply prefix_append|]. eexists. reflexivity.
Qed.

Lemma table_step_shape (key0 : option string) (secs : dict section)
    (tabs : list table) (rows : list (list string)) :
  exists secs',
    table_step key0 (secs, tabs) rows
    = Done (secs', tabs ++ (if is_nil (table_data_of rows) then []
                            else [table_data_of rows])) /\
    (secs' = secs \/
     exists target cs,
       cs <> [] /\ Forall contact_ok cs /\
       place_contacts secs (table_data_of rows) target cs = Done secs').
Proof.
  unfold table_step.
  destruct (is_nil (table_data_of rows)); cbn [negb].
  { exists secs. rewrite app_nil_r. auto. }
  rewrite is_contact_table_value. cbn [lift and_then].
  match goal with |- context [if ?b then _ else _] => destruct b end;
    [|exists secs; auto].
  destruct (extract_contact_table_returns (table_data_of rows)) as [cs Hcs].
  rewrite Hcs. cbn [lift and_then].
  destruct cs as [|c cs]; cbn [is_nil negb]; [exists secs; auto|].
  destruct (place_contacts_shape secs (table_data_of rows)
              (target_section_of (table_data_of rows) key0) (c :: cs))
    as (key & sec' & Hplace & _); [discriminate|].
  rewrite Hplace. cbn [and_then]. eexists. split; [reflexivity|].
  right. exists (target_section_of (table_data_of rows) key0), (c :: cs).
  split; [discriminate|]. split; [|exact Hplace].
  exact (extract_contact_table_ok _ _ Hcs).
Qed.

(** An invariant of the sections that both updates of [place_contacts] keep
    is kept by the second pass, which returns. *)
Lemma second_pass_invariant (P : dict section -> Prop) :
  (forall secs key sec cs,
      P secs -> cs <> [] -> Forall contact_ok cs ->
      dict_get secs key = Some sec ->
      P (dict_set secs key
           (mkSection (section_title sec) "contacts"
                      (section_content sec ++ map ContactItem cs)))) ->
  (forall secs key title cs,
      P secs -> cs <> [] -> Forall contact_ok cs ->
      dict_get secs key = None \/ prefix "team_contacts_" key = true ->
      P (dict_set secs key
           (mkSection (Some title) "contacts" (map ContactItem cs)))) ->
  forall key0 docx_tables secs tabs,
    P secs ->
    exists secs',
      second_pass key0 (secs, tabs) docx_tables
      = Done (secs', tabs ++ filter (fun t => negb (is_nil t))
                                    (map table_data_of docx_tables)) /\
      P secs'.
Proof.
  intros Hadd Hnew key0 docx_tables.
  induction docx_tables as [|rows rest IH]; intros secs tabs HP;
    cbn [second_pass map filter].
  - exists secs. rewrite app_nil_r. auto.
  - destruct (table_step_shape key0 secs tabs rows)
      as (secs1 & Hstep & Hsecs). rewrite Hstep. cbn [and_then].
    assert (HP1 : P secs1).
    { destruct Hsecs as [->|(target & cs & Hcs & Hok & Hplace)];
        [exact HP|].
      destruct (place_contacts_shape secs (table_data_of rows) target cs Hcs)
        as (key & sec' & Hshape & Hcase).
      rewrite Hplace in Hshape. injection Hshape as ->.
      destruct Hcase as [(sec & Hget & ->)|(Hfresh & title & ->)].
      - apply Hadd; assumption.
      - apply Hnew; assumption. }
    destruct (IH secs1 (tabs ++ (if is_nil (table_data_of rows) then []
                                 else [table_data_of rows])) HP1)
      as (secs' & Hrest & HP').
    exists secs'. split; [|exact HP'].
    rewrite Hrest. f_equal. f_equal. rewrite <- app_assoc. f_equal.
    destruct (is_nil (table_data_of rows)); reflexivity.
Qed.

(** ** The first pass *)

Lemma paragraph_step_toc (st : pass_state) (p : Docx.Paragraph) :
  pass_toc (paragraph_step st p)
  = pass_toc st ++ (if heading_paragraph p then [toc_entry_of p] else []).
Proof.
  unfold paragraph_step, heading_paragraph, toc_entry_of.
  fold (paragraph_text p). fold (paragraph_style_name p).
  destruct (Text.truthy (paragraph_text p)); cbn [negb andb];
    [|rewrite app_nil_r; reflexivity].
  destruct (is_heading (paragraph_style_name p) (paragraph_text p));
    [reflexivity|].
  destruct (truthy_opt (current_section_key st)); cbn [pass_toc];
    rewrite app_nil_r; reflexivity.
Qed.

Lemma first_pass_toc (paragraphs : list Docx.Paragraph) :
  pass_toc (first_pass paragraphs)
  = map toc_entry_of (filter heading_paragraph paragraphs).
Proof.
  unfold first_pass. cbn [pass_toc].
  assert (H : forall ps st,
             pass_toc (fold_left paragraph_step ps st)
             = pass_toc st ++ map toc_entry_of (filter heading_paragraph ps)).
  { induction ps as [|p ps IH]; intros st; cbn [fold_left filter map].
    - rewrite app_nil_r. reflexivity.
    - rewrite IH, paragraph_step_toc, <- app_assoc.
      destruct (heading_paragraph p); reflexivity. }
  rewrite H. reflexivity.
Qed.

Lemma save_section_ok (st : pass_state) :
  pass_ok st -> Forall (fun kv => section_ok (snd kv)) (save_section st).
Proof.
  intros [Hsecs Hcontent]. unfold save_section.
  destruct (current_section_key st) as [key|]; [|exact Hsecs].
  destruct (Text.truthy key && negb (is_nil (current_content st))) eqn:H;
    [|exact Hsecs].
  apply andb_true_iff in H as [_ Hne].
  apply dict_set_Forall; [exact Hsecs|].
  split; cbn [section_content section_type].
  - eapply Forall_impl; [|exact Hcontent]. intros it [H _]. exact H.
  - left. split; [reflexivity|]. split.
    + destruct (current_content st); [discriminate|discriminate].
    + eapply Forall_impl; [|exact Hcontent]. intros it [_ H]. exact H.
Qed.

Lemma truthy_not_empty (s : string) :
  Text.truthy s = true -> s <> EmptyString.
Proof. intros H ->. discriminate. Qed.

Lemma paragraph_step_ok (st : pass_state) (p : Docx.Paragraph) :
  pass_ok st -> pass_ok (paragraph_step st p).
Proof.
  intros Hst. unfold paragraph_step.
  destruct (Text.truthy (Str.strip (Docx.text p))) eqn:Ht; cbn [negb];
    [|exact Hst].
  destruct (is_heading _ (Str.strip (Docx.text p))).
  - split; cbn [pass_sections current_content];
      [apply save_section_ok; exact Hst|constructor].
  - destruct (truthy_opt (current_section_key st)); [|exact Hst].
    destruct Hst as [Hsecs Hcontent].
    split; cbn [pass_sections current_content]; [exact Hsecs|].
    apply Forall_app. split; [exact Hcontent|].
    constructor; [|constructor].
    split; [exact (truthy_not_empty _ Ht)|reflexivity].
Qed.

Lemma first_pass_ok (paragraphs : list Docx.Paragraph) :
  Forall (fun kv => section_ok (snd kv))
         (pass_sections (first_pass paragraphs)).
Proof.
  unfold first_pass. cbn [pass_sections]. apply save_section_ok.
  assert (H : forall ps st, pass_ok st ->
                            pass_ok (fold_left paragraph_step ps st)).
  { induction ps as [|p ps IH]; intros st Hst; [exact Hst|].
    cbn [fold_left]. apply IH, paragraph_step_ok, Hst. }
  apply H. split; constructor.
Qed.

(** ** The structure that is returned *)

(** The function returns a structure, with the table of contents of the
    first pass and the non-empty cleaned tables; an invariant of the
    sections that holds after the first pass and that [place_contacts]
    keeps holds for the sections returned. *)
Lemma extraction_invariant (P : dict section -> Prop)
    (doc : Docx.Document) :
  (forall secs key sec cs,
      P secs -> cs <> [] -> Forall contact_ok cs ->
      dict_get secs key = Some sec ->
      P (dict_set secs key
           (mkSection (section_title sec) "contacts"
                      (section_content sec ++ map ContactItem cs)))) ->
  (forall secs key title cs,
      P secs -> cs <> [] -> Forall contact_ok cs ->
      dict_get secs key = None \/ prefix "team_contacts_" key = true ->
      P (dict_set secs key
           (mkSection (Some title) "contacts" (map ContactItem cs)))) ->
  P (pass_sections (first_pass (Docx.paragraphs doc))) ->
  exists secs,
    extract_fixed_document_structure doc
    = Structure
        (mkStructure secs
           (map toc_entry_of (filter heading_paragraph (Docx.paragraphs doc)))
           (filter (fun t => negb (is_nil t))
                   (map table_data_of (Docx.tables doc)))) /\
    P secs.
Proof.
  intros Hadd Hnew Hfirst. unfold extract_fixed_document_structure.
  destruct (second_pass_invariant P Hadd Hnew
              (current_section_key (first_pass (Docx.paragraphs doc)))
              (Docx.tables doc) _ [] Hfirst) as (secs & Hrun & HP).
  rewrite Hrun, first_pass_toc. exists secs. split; [reflexivity|exact HP].
Qed.

Lemma contact_items_ok (cs : list contact) :
  Forall contact_ok cs -> Forall item_ok (map ContactItem cs).
Proof.
  intros H. apply Forall_map. eapply Forall_impl; [|exact H].
  intros c Hc. exact Hc.
Qed.

Lemma contact_items_exist (cs : list contact) :
  cs <> [] -> Exists (fun it => is_contact_item it = true)
                     (map ContactItem cs).
Proof. destruct cs; [congruence|]. intros _. left. reflexivity. Qed.

Lemma extraction_sections_ok (doc : Docx.Document) :
  exists secs,
    extract_fixed_document_structure doc
    = Structure
        (mkStructure secs
           (map toc_entry_of (filter heading_paragraph (Docx.paragraphs doc)))
           (filter (fun t => negb (is_nil t))
                   (map table_data_of (Docx.tables doc)))) /\
    Forall (fun kv => section_ok (snd kv)) secs.
Proof.
  apply (extraction_invariant
           (fun secs => Forall (fun kv => section_ok (snd kv)) secs)).
  - intros secs key sec cs Hsecs Hcs Hok Hget.
    apply dict_set_Forall; [exact Hsecs|].
    destruct (dict_get_Forall _ _ _ _ Hsecs Hget) as [Hitems _].
    split; cbn [section_content section_type].
    + apply Forall_app. split; [exact Hitems|apply contact_items_ok, Hok].
    + right. split; [reflexivity|].
      apply Exists_app. right. apply contact_items_exist, Hcs.
  - intros secs key title cs Hsecs Hcs Hok _.
    apply dict_set_Forall; [exact Hsecs|].
    split; cbn [section_content section_type].
    + apply contact_items_ok, Hok.
    + right. split; [reflexivity|apply contact_items_exist, Hcs].
  - apply first_pass_ok.
Qed.

(** X9: for a loaded document, [extract_fixed_document_structure] returns a
    structure (never the error dictionary) whose table of contents has one
    entry for each non-blank heading paragraph, in document order, with the
    paragraph's section key, its stripped text as title and its level; the
    tables of the document do not change it. *)
Theorem toc_lists_the_headings (doc : Docx.Document) :
  exists s,
    extract_fixed_document_structure doc = Structure s /\
    toc s = map toc_entry_of
                (filter heading_paragraph (Docx.paragraphs doc)).
Proof.
  destruct (extraction_sections_ok doc) as (secs & H & _).
  eexists. split; [exact H|reflexivity].
Qed.

(** ** Cleaned tables *)

Lemma row_data_of_clean (cells : list string) :
  Forall clean_cell (row_data_of cells).
Proof.
  induction cells as [|cell rest IH]; cbn [row_data_of]; [constructor|].
  destruct (Text.truthy (Str.strip cell)) eqn:Ht; [|exact IH].
  constructor; [|exact IH].
  split; [exact (truthy_not_empty _ Ht)|apply strip_idempotent].
Qed.

Lemma table_data_of_clean (rows : list (list string)) :
  Forall (fun row => row <> [] /\ Forall clean_cell row)
         (table_data_of rows).
Proof.
  induction rows as [|row rest IH]; cbn [table_data_of]; [constructor|].
  destruct (row_data_of row) as [|cell cells] eqn:Hrow; cbn [is_nil negb];
    [exact IH|].
  constructor; [|exact IH]. split; [discriminate|].
  rewrite <- Hrow. apply row_data_of_clean.
Qed.

(** X10: the tables of the structure are the tables of the document, in
    order, each reduced to its non-empty stripped cells, without the rows
    and the tables that are left empty: no table and no row of the result is
    empty, and every cell is non-empty and has no white space around it. *)
Theorem tables_are_cleaned (doc : Docx.Document) :
  exists s,
    extract_fixed_document_structure doc = Structure s /\
    tables s = filter (fun t => negb (is_nil t))
                      (map table_data_of (Docx.tables doc)) /\
    Forall (fun t => t <> [] /\
                     Forall (fun row => row <> [] /\ Forall clean_cell row) t)
           (tables s).
Proof.
  destruct (extraction_sections_ok doc) as (secs & H & _).
  eexists. split; [exact H|]. split; [reflexivity|]. cbn [tables].
  apply Forall_forall. intros t Ht. apply filter_In in Ht as [Hin Hne].
  split; [destruct t; [discriminate|discriminate]|].
  apply in_map_iff in Hin as (rows & <- & _). apply table_data_of_clean.
Qed.

(** ** The sections of the structure *)

(** X11: every contact stored in a section of the structure has a non-empty
    name that passes [is_person_name], and the type "team_member". *)
Theorem stored_contacts_are_validated (doc : Docx.Document) :
  exists s,
    extract_fixed_document_structure doc = Structure s /\
    forall key sec c,
      In (key, sec) (sections s) ->
      In (ContactItem c) (section_content sec) ->
      name c <> EmptyString /\ is_person_name (name c) = true /\
      type c = "team_member".
Proof.
  destruct (extraction_sections_ok doc) as (secs & H & Hok).
  eexists. split; [exact H|]. cbn [sections].
  intros key sec c Hsec Hc. rewrite Forall_forall in Hok.
  destruct (Hok _ Hsec) as [Hitems _]. cbn [snd] in Hitems.
  rewrite Forall_forall in Hitems.
  destruct (Hitems _ Hc) as [[Hne Hp] Hty]. auto.
Qed.

(** X12: every section of the structure is of one of two kinds: its type is
    "general" and its content is a non-empty list of text items, or its
    type is "contacts" and its content holds at least one contact. *)
Theorem sections_are_general_or_contacts (doc : Docx.Document) :
  exists s,
    extract_fixed_document_structure doc = Structure s /\
    forall key sec,
      In (key, sec) (sections s) ->
      (section_type sec = "general" /\ section_content sec <> [] /\
       Forall (fun it => is_contact_item it = false) (section_content sec)) \/
      (section_type sec = "contacts" /\
       Exists (fun it => is_contact_item it = true) (section_content sec)).
Proof.
  destruct (extraction_sections_ok doc) as (secs & H & Hok).
  eexists. split; [exact H|]. cbn [sections].
  intros key sec Hsec. rewrite Forall_forall in Hok.
  destruct (Hok _ Hsec) as [_ Hkind]. exact Hkind.
Qed.

(** ** The count of contacts *)

Lemma team_members_are_contacts (content : list item) :
  Forall item_ok content ->
  filter (fun it => String.eqb (item_type it) "team_member") content
  = filter is_contact_item content.
Proof.
  induction 1 as [|it content Hit _ IH]; [reflexivity|].
  cbn [filter]. rewrite IH. destruct it as [text|c]; cbn.
  - reflexivity.
  - destruct Hit as [_ ->]. reflexivity.
Qed.

Lemma count_contacts_value (secs : dict section) :
  Forall (fun kv => section_ok (snd kv)) secs ->
  forall n m,
    count_contacts secs n m
    = (n + List.length (filter is_contact_item (all_items secs)),
       m + List.length
             (filter (fun kv => String.eqb (section_type (snd kv)) "contacts")
                     secs)).
Proof.
  induction 1 as [|[key sec] secs Hsec _ IH]; intros n m;
    cbn [count_contacts all_items flat_map filter snd].
  - cbn [List.length]. f_equal; lia.
  - fold (all_items secs). rewrite filter_app, length_app.
    destruct Hsec as [Hitems Hkind]. cbn [snd] in Hitems, Hkind.
    destruct (String.eqb (section_type sec) "contacts") eqn:Hty;
      cbn iota.
    + rewrite IH, (team_members_are_contacts _ Hitems).
      cbn [List.length]. f_equal; lia.
    + destruct Hkind as [(_ & _ & Hnone)|[Hc _]];
        [|rewrite Hc in Hty; discriminate].
      rewrite IH, (filter_none is_contact_item (section_content sec));
        [cbn [List.length]; f_equal; lia|].
      rewrite Forall_forall in Hnone. exact Hnone.
Qed.

(** X13: on the sections of the structure, the counting loop of
    [convert_with_fixed_extraction] counts every stored contact, once:
    [contact_count] is the number of contact items of all the sections,
    [contact_tables] the number of sections of type "contacts", and the one
    is zero exactly when the other is. *)
Theorem every_contact_is_counted (doc : Docx.Document) :
  exists s,
    extract_fixed_document_structure doc = Structure s /\
    count_contacts (sections s) 0 0
    = (List.length (filter is_contact_item (all_items (sections s))),
       List.length
         (filter (fun kv => String.eqb (section_type (snd kv)) "contacts")
                 (sections s))) /\
    (fst (count_contacts (sections s) 0 0) = 0 <->
     snd (count_contacts (sections s) 0 0) = 0).
Proof.
  destruct (extraction_sections_ok doc) as (secs & H & Hok).
  eexists. split; [exact H|]. cbn [sections].
  rewrite (count_contacts_value secs Hok 0 0). cbn [Nat.add fst snd].
  split; [reflexivity|].
  clear H. induction Hok as [|[key sec] secs Hsec _ IH];
    cbn [all_items flat_map filter snd]; [tauto|].
  fold (all_items secs). rewrite filter_app, length_app.
  destruct Hsec as [_ [(Hg & _ & Hnone)|[Hc Hsome]]]; cbn [snd] in *.
  - rewrite Hg. cbn [String.eqb Ascii.eqb Bool.eqb].
    rewrite (filter_none is_contact_item (section_content sec));
      [exact IH|].
    rewrite Forall_forall in Hnone. exact Hnone.
  - rewrite Hc. cbn [String.eqb Ascii.eqb Bool.eqb List.length].
    apply Exists_exists in Hsome as (it & Hin & Hit).
    assert (Hpos : In it (filter is_contact_item (section_content sec)))
      by (apply filter_In; auto).
    destruct (filter is_contact_item (section_content sec));
      [destruct Hpos|]. cbn [List.length]. split; intros; lia.
Qed.

(** ** Paragraphs before the first heading *)

Lemma paragraph_step_before_heading (p : Docx.Paragraph) :
  heading_paragraph p = false ->
  paragraph_step (mkPass [] [] None None []) p = mkPass [] [] None None [].
Proof.
  unfold heading_paragraph, paragraph_step.
  fold (paragraph_text p). fold (paragraph_style_name p).
  destruct (Text.truthy (paragraph_text p)); cbn [negb andb];
    [|reflexivity].
  intros ->. reflexivity.
Qed.

(** X14: the paragraphs that come before the first heading are dropped:
    the structure is the one of the document without them. *)
Theorem text_before_first_heading_dropped
    (before rest : list Docx.Paragraph) (tabs : list (list (list string))) :
  (forall p, In p before -> heading_paragraph p = false) ->
  extract_fixed_document_structure (Docx.mkDocument (before ++ rest) tabs)
  = extract_fixed_document_structure (Docx.mkDocument rest tabs).
Proof.
  intros Hbefore. unfold extract_fixed_document_structure, first_pass.
  cbn [Docx.paragraphs Docx.tables]. rewrite fold_left_app.
  replace (fold_left paragraph_step before (mkPass [] [] None None []))
    with (mkPass [] [] None None []); [reflexivity|].
  induction before as [|p before IH]; [reflexivity|].
  cbn [fold_left].
  rewrite paragraph_step_before_heading by (apply Hbefore; left; reflexivity).
  apply IH. intros q Hq. apply Hbefore. right. exact Hq.
Qed.

(** ** What the second pass keeps of the first *)

(** X15: a section stored by the first pass under a key that does not begin
    with "team_contacts_" is still in the structure under that key, with its
    title, and its content there is its first-pass content followed by
    contacts only. *)
Theorem first_pass_sections_kept (doc : Docx.Document) (key : string)
    (sec1 : section) :
  dict_get (pass_sections (first_pass (Docx.paragraphs doc))) key
  = Some sec1 ->
  prefix "team_contacts_" key = false ->
  exists s sec more,
    extract_fixed_document_structure doc = Structure s /\
    dict_get (sections s) key = Some sec /\
    section_title sec = section_title sec1 /\
    section_content sec = section_content sec1 ++ map ContactItem more.
Proof.
  intros Hfirst Hkey.
  destruct (extraction_invariant
              (fun secs =>
                 exists sec more,
                   dict_get secs key = Some sec /\
                   section_title sec = section_title sec1 /\
                   section_content sec
                   = section_content sec1 ++ map ContactItem more) doc)
    as (secs & Hrun & sec & more & Hget & Htitle & Hcontent).
  - intros secs k sec0 cs (sec & more & Hget & Htitle & Hcontent) _ _ Hk.
    destruct (string_dec k key) as [->|Hne].
    + rewrite dict_get_set_same. do 2 eexists. split; [reflexivity|].
      rewrite Hget in Hk. injection Hk as <-.
      cbn [section_title section_content]. split; [exact Htitle|].
      rewrite Hcontent, <- app_assoc, <- map_app. reflexivity.
    + rewrite dict_get_set_other by congruence. eauto.
  - intros secs k title cs (sec & more & Hget & Htitle & Hcontent) _ _ Hk.
    assert (Hne : key <> k).
    { intros ->. destruct Hk as [Hk|Hk]; congruence. }
    rewrite dict_get_set_other by exact Hne. eauto.
  - exists sec1, []. rewrite app_nil_r. auto.
  - exists (mkStructure secs
              (map toc_entry_of
                   (filter heading_paragraph (Docx.paragraphs doc)))
              (filter (fun t => negb (is_nil t))
                      (map table_data_of (Docx.tables doc)))),
           sec, more.
    auto.
Qed.

Lemma text_before_first_heading_dropped_witness :
  extract_fixed_document_structure sample_document
  = extract_fixed_document_structure
      (Docx.mkDocument sample_paragraphs sample_tables).
Proof.
  apply (text_before_first_heading_dropped
           [Docx.mkParagraph "Cover note" None] sample_paragraphs
           sample_tables).
  intros p [<-|[]]. vm_compute; reflexivity.
Defined.

Lemma first_pass_sections_kept_witness :
  exists s sec more,
    extract_fixed_document_structure sample_document = Structure s /\
    dict_get (sections s) "business_function_team_bft" = Some sec /\
    section_title sec = Some "Business Function Team (BFT)" /\
    section_content sec
    = [TextItem "Call the team lead first."] ++ map ContactItem more.
Proof.
  apply (first_pass_sections_kept sample_document
           "business_function_team_bft"
           (mkSection (Some "Business Function Team (BFT)") "general"
                      [TextItem "Call the team lead first."])).
  - vm_compute; reflexivity.
  - vm_compute; reflexivity.
Defined.

(** ** General sections and the table of contents *)

Lemma save_section_in_toc (st : pass_state) (key : string) (sec : section) :
  pass_in_toc st ->
  In (key, sec) (save_section st) ->
  exists e, In e (pass_toc st) /\ toc_key e = key /\
            section_title sec = Some (toc_title e).
Proof.
  intros [Hsecs Hcur] Hin. unfold save_section in Hin.
  destruct (current_section_key st) as [k|]; [|exact (Hsecs _ _ Hin)].
  destruct (Text.truthy k && negb (is_nil (current_content st)));
    [|exact (Hsecs _ _ Hin)].
  apply dict_set_In in Hin as [[-> ->]|Hin]; [|exact (Hsecs _ _ Hin)].
  exact (Hcur k eq_refl).
Qed.

Lemma paragraph_step_in_toc (st : pass_state) (p : Docx.Paragraph) :
  pass_in_toc st -> pass_in_toc (paragraph_step st p).
Proof.
  intros Hst. unfold paragraph_step.
  destruct (Text.truthy (Str.strip (Docx.text p))); cbn [negb];
    [|exact Hst].
  destruct (is_heading _ (Str.strip (Docx.text p))).
  - split; cbn [pass_sections pass_toc current_section_key
                current_section_title].
    + intros key sec Hin.
      destruct (save_section_in_toc st key sec Hst Hin) as (e & He & Hk).
      exists e. split; [apply in_or_app; left; exact He|exact Hk].
    + intros key [= <-]. eexists. split.
      * apply in_or_app. right. left. reflexivity.
      * split; reflexivity.
  - destruct (truthy_opt (current_section_key st)); exact Hst.
Qed.

Lemma first_pass_in_toc (paragraphs : list Docx.Paragraph) (key : string)
    (sec : section) :
  In (key, sec) (pass_sections (first_pass paragraphs)) ->
  exists e, In e (pass_toc (first_pass paragraphs)) /\ toc_key e = key /\
            section_title sec = Some (toc_title e).
Proof.
  unfold first_pass. cbn [pass_sections pass_toc].
  apply save_section_in_toc.
  assert (H : forall ps st, pass_in_toc st ->
                            pass_in_toc (fold_left paragraph_step ps st)).
  { induction ps as [|p ps IH]; intros st Hst; [exact Hst|].
    cbn [fold_left]. apply IH, paragraph_step_in_toc, Hst. }
  apply H. split; cbn; [intros k s []|discriminate].
Qed.

(** X16: every section of type "general" of the structure has the key and
    the title of an entry of the table of contents. *)
Theorem general_sections_are_in_toc (doc : Docx.Document) :
  exists s,
    extract_fixed_document_structure doc = Structure s /\
    forall key sec,
      In (key, sec) (sections s) ->
      section_type sec = "general" ->
      exists e, In e (toc s) /\ toc_key e = key /\
                section_title sec = Some (toc_title e).
Proof.
  destruct (extraction_invariant
              (fun secs =>
                 forall key sec,
                   In (key, sec) secs -> section_type sec = "general" ->
                   exists e,
                     In e (pass_toc (first_pass (Docx.paragraphs doc))) /\
                     toc_key e = key /\
                     section_title sec = Some (toc_title e)) doc)
    as (secs & Hrun & Hsecs).
  - intros secs k sec0 cs Hold _ _ _ key sec Hin Hty.
    apply dict_set_In in Hin as [[_ ->]|Hin]; [discriminate|].
    exact (Hold key sec Hin Hty).
  - intros secs k title cs Hold _ _ _ key sec Hin Hty.
    apply dict_set_In in Hin as [[_ ->]|Hin]; [discriminate|].
    exact (Hold key sec Hin Hty).
  - intros key sec Hin _. apply first_pass_in_toc. exact Hin.
  - eexists. split; [exact Hrun|]. cbn [sections toc].
    rewrite <- first_pass_toc. exact Hsecs.
Qed.

(** ** Texts that speak of sections *)

Lemma prefix_upper (a b : string) :
  prefix a b = true -> prefix (Text.upper a) (Text.upper b) = true.
Proof.
  revert a. induction b as [|y b IH]; intros [|x a]; simpl; auto.
  destruct (ascii_dec x y) as [->|]; [|discriminate].
  intros H. destruct (ascii_dec (Text.upper_char y) (Text.upper_char y));
    [auto|congruence].
Qed.

Lemma contains_upper (a b : string) :
  Str.contains a b = true ->
  Str.contains (Text.upper a) (Text.upper b) = true.
Proof.
  induction b as [|y b IH]; simpl; rewrite !orb_true_iff.
  - intros [H|H]; [|discriminate]. left. apply (prefix_upper a ""). exact H.
  - intros [H|H].
    + left. apply (prefix_upper a (String y b)). exact H.
    + right. auto.
Qed.

Lemma upper_lower (s : string) : Text.upper (Str.lower s) = Text.upper s.
Proof.
  assert (H : forall c, Ascii.eqb (Text.upper_char (Str.lower_char c))
                                  (Text.upper_char c) = true)
    by (apply forall_ascii; vm_compute; reflexivity).
  induction s as [|c s IH]; [reflexivity|].
  cbn [Str.lower Text.upper]. rewrite IH. f_equal.
  apply Ascii.eqb_eq, H.
Qed.

(** X17: a text that contains "section" or "appendix", in any letter case,
    is taken as a heading whatever the style of its paragraph is, and its
    level is 1. *)
Theorem section_word_makes_heading (style_name : option string)
    (text : string) :
  Str.contains "section" (Str.lower text) = true \/
  Str.contains "appendix" (Str.lower text) = true ->
  is_heading style_name text = true /\ heading_level text = 1.
Proof.
  intros H.
  assert (Hup : Str.contains "SECTION" (Text.upper text)
                || Str.contains "APPENDIX" (Text.upper text) = true).
  { apply orb_true_iff.
    destruct H as [H|H]; apply contains_upper in H;
      rewrite upper_lower in H; [left|right]; exact H. }
  split.
  - unfold is_heading, Str.contains_any. cbn [existsb].
    rewrite orb_false_r, Hup, orb_true_r. reflexivity.
  - unfold heading_level. rewrite Hup. reflexivity.
Qed.

Lemma section_word_makes_heading_witness :
  is_heading (Some "Normal") "See Section 3 for details." = true /\
  heading_level "See Section 3 for details." = 1.
Proof.
  apply section_word_makes_heading. left. vm_compute; reflexivity.
Defined.

(** ** Accepted tables *)

Lemma filter_length_le {A : Type} (f : A -> bool) (l : list A) :
  List.length (filter f l) <= List.length l.
Proof.
  induction l as [|a l IH]; [apply le_n|].
  cbn [filter]. destruct (f a); cbn [List.length]; lia.
Qed.

Lemma filter_firstn_length {A : Type} (f : A -> bool) (n : nat)
    (l : list A) :
  List.length (filter f (firstn n l)) <= List.length (filter f l).
Proof.
  rewrite <- (firstn_skipn n l) at 2. rewrite filter_app, length_app. lia.
Qed.

Lemma accepted_person_rows (t : table) :
  is_contact_table t = Ok true ->
  2 <= List.length (filter first_cell_is_person (firstn 5 (skipn 1 t))).
Proof.
  rewrite is_contact_table_value. intros H.
  assert (Hb : forall b : bool, Ok b = Ok true -> b = true)
    by (intros b Hb; congruence).
  apply Hb, andb_true_iff in H. destruct H as [_ H].
  apply Nat.leb_le in H. exact H.
Qed.

(** X18: a table that [is_contact_table] accepts has at least 3 rows: a
    table of two rows is always rejected. *)
Theorem accepted_tables_have_three_rows (t : table) :
  is_contact_table t = Ok true -> 3 <= List.length t.
Proof.
  intros H. apply accepted_person_rows in H.
  pose proof (filter_length_le first_cell_is_person (firstn 5 (skipn 1 t)))
    as Hle.
  pose proof (firstn_le_length 5 (skipn 1 t)) as H5.
  rewrite length_firstn, length_skipn in Hle. lia.
Qed.

Lemma accepted_tables_have_three_rows_witness :
  3 <= List.length scenario_A.
Proof.
  apply accepted_tables_have_three_rows. vm_compute; reflexivity.
Defined.

(** X19: when row 0 of an accepted table holds one of the six header
    keywords of the extractor and no header after the first contains
    "name", [extract_contact_table] returns at least two records. *)
Theorem header_in_row_0_gives_two_records (t : table) (row0 : list string)
    (cs : list contact) :
  is_contact_table t = Ok true ->
  nth_error t 0 = Some row0 ->
  Str.contains_any extract_header_keywords
    (Str.lower (Str.join " " row0)) = true ->
  (forall j h, 1 <= j ->
               nth_error (map (fun col => Str.strip (Str.lower col)) row0) j
               = Some h ->
               Str.contains "name" h = false) ->
  extract_contact_table t = Ok cs ->
  2 <= List.length cs.
Proof.
  intros Hacc H0 Hkw Hno Hcs.
  assert (Hloc : locate_headers t = Ok (normalized row0, 1)).
  { apply (locate_headers_found t 0 row0 H0 Hkw). intros j r Hj. lia. }
  rewrite (extract_accepted t _ 1 Hacc Hloc) in Hcs.
  assert (Hne : normalized row0 <> []).
  { destruct row0; [discriminate|discriminate]. }
  destruct (extract_rows_complete _ _ Hne Hno _ _ Hcs)
    as (new & -> & Hraw & _).
  cbn [app]. rewrite <- (length_map raw_data), Hraw.
  pose proof (accepted_person_rows t Hacc) as H2.
  pose proof (filter_firstn_length first_cell_is_person 5 (skipn 1 t)). lia.
Qed.

Lemma header_in_row_0_gives_two_records_witness :
  2 <= List.length mail_table_contacts.
Proof.
  apply (header_in_row_0_gives_two_records mail_table
           ["Name"; "Title"; "Phone"]).
  - vm_compute; reflexivity.
  - reflexivity.
  - vm_compute; reflexivity.
  - intros j h Hj Hh.
    destruct j as [|[|[|j]]]; [lia| | |destruct j; discriminate];
      injection Hh as <-; vm_compute; reflexivity.
  - vm_compute; reflexivity.
Defined.

(** ** Cleaning twice *)

Lemma row_data_of_fixed (cells : list string) :
  Forall clean_cell cells -> row_data_of cells = cells.
Proof.
  induction 1 as [|cell rest [Hne Hstrip] _ IH]; [reflexivity|].
  cbn [row_data_of]. rewrite Hstrip, IH.
  destruct cell; [congruence|reflexivity].
Qed.

Lemma table_data_of_fixed (rows : table) :
  Forall (fun row => row <> [] /\ Forall clean_cell row) rows ->
  table_data_of rows = rows.
Proof.
  induction 1 as [|row rest [Hne Hclean] _ IH]; [reflexivity|].
  cbn [table_data_of]. rewrite (row_data_of_fixed row Hclean), IH.
  destruct row; [congruence|reflexivity].
Qed.

(** X20: cleaning is idempotent: the cleaned form of a table is left as it
    is by a second cleaning. *)
Theorem table_data_of_idempotent (rows : list (list string)) :
  table_data_of (table_data_of rows) = table_data_of rows.
Proof. apply table_data_of_fixed, table_data_of_clean. Qed.

(** ** Documents without contact tables *)

Lemma table_step_rejected (key0 : option string) (secs : dict section)
    (tabs : list table) (rows : list (list string)) :
  is_contact_table (table_data_of rows) = Ok false ->
  exists tabs', table_step key0 (secs, tabs) rows = Done (secs, tabs').
Proof.
  intros H. unfold table_step.
  destruct (is_nil (table_data_of rows)); cbn [negb]; [eauto|].
  rewrite H. cbn [lift and_then]. eauto.
Qed.

(** X21: when [is_contact_table] rejects every table of the document, the
    sections of the structure are the sections of the first pass, as the
    paragraphs gave them. *)
Theorem rejected_tables_change_no_section (doc : Docx.Document) :
  (forall rows, In rows (Docx.tables doc) ->
                is_contact_table (table_data_of rows) = Ok false) ->
  exists s,
    extract_fixed_document_structure doc = Structure s /\
    sections s = pass_sections (first_pass (Docx.paragraphs doc)).
Proof.
  intros Hrej. unfold extract_fixed_document_structure.
  assert (H : forall docx_tables secs tabs,
             (forall rows, In rows docx_tables ->
                           is_contact_table (table_data_of rows) = Ok false) ->
             exists tabs',
               second_pass
                 (current_section_key (first_pass (Docx.paragraphs doc)))
                 (secs, tabs) docx_tables = Done (secs, tabs')).
  { induction docx_tables as [|rows rest IH]; intros secs tabs Hall;
      cbn [second_pass]; [eauto|].
    destruct (table_step_rejected
                (current_section_key (first_pass (Docx.paragraphs doc)))
                secs tabs rows) as [tabs1 Hstep];
      [apply Hall; left; reflexivity|].
    rewrite Hstep. cbn [and_then]. apply IH.
    intros r Hr. apply Hall. right. exact Hr. }
  destruct (H (Docx.tables doc)
              (pass_sections (first_pass (Docx.paragraphs doc))) [] Hrej)
    as [tabs' Hrun].
  rewrite Hrun. eexists. split; reflexivity.
Qed.

Lemma rejected_tables_change_no_section_witness :
  exists s,
    extract_fixed_document_structure
      (Docx.mkDocument sample_paragraphs
         [[["Step"; "Action"]; ["1"; "Notify manager"];
           ["2"; "Escalate to IT"]]]) = Structure s /\
    sections s = pass_sections (first_pass sample_paragraphs).
Proof.
  apply (rejected_tables_change_no_section
           (Docx.mkDocument sample_paragraphs
              [[["Step"; "Action"]; ["1"; "Notify manager"];
                ["2"; "Escalate to IT"]]])).
  intros rows [<-|[]]. vm_compute; reflexivity.
Defined.

(** ** What a match is made of *)

Lemma substring_prefix (n : nat) (s : string) :
  prefix (substring 0 n s) s = true.
Proof.
  revert n. induction s as [|c s IH]; intros [|n]; try reflexivity.
  cbn [substring prefix].
  destruct (ascii_dec c c); [apply IH|congruence].
Qed.

Lemma substring_0_0 (s : string) : substring 0 0 s = EmptyString.
Proof. destruct s; reflexivity. Qed.

Lemma rep_chars (cls P : ascii -> bool)
    (k : option ascii -> string -> option nat) :
  (forall c, cls c = true -> P c = true) ->
  (forall prev s n, k prev s = Some n ->
                    Str.all_char P (substring 0 n s) = true) ->
  forall s lo hi prev n,
    Re.rep cls k lo hi prev s = Some n ->
    Str.all_char P (substring 0 n s) = true.
Proof.
  intros Hcls Hk.
  assert (Hstop : forall s lo prev n,
             match lo with
             | 0 => k prev s
             | S _ => None
             end = Some n ->
             Str.all_char P (substring 0 n s) = true).
  { intros s [|lo] prev n H; [exact (Hk _ _ _ H)|discriminate]. }
  induction s as [|c s IH]; intros lo hi prev n H; cbn [Re.rep] in H.
  - destruct hi as [[|hi]|]; exact (Hstop _ _ _ _ H).
  - assert (Hgo : (if cls c
                   then match Re.rep cls k (pred lo) (option_map pred hi)
                                     (Some c) s with
                        | Some m => Some (S m)
                        | None => match lo with
                                  | 0 => k prev (String c s)
                                  | S _ => None
                                  end
                        end
                   else match lo with
                        | 0 => k prev (String c s)
                        | S _ => None
                        end) = Some n ->
                  Str.all_char P (substring 0 n (String c s)) = true).
    { destruct (cls c) eqn:Hc; [|apply Hstop].
      destruct (Re.rep cls k (pred lo) (option_map pred hi) (Some c) s)
        as [m|] eqn:Hm; [|apply Hstop].
      intros [= <-]. cbn [substring Str.all_char].
      rewrite (Hcls c Hc), (IH _ _ _ _ Hm). reflexivity. }
    destruct hi as [[|hi]|]; [exact (Hstop _ _ _ _ H)|exact (Hgo H)
                             |exact (Hgo H)].
Qed.

Lemma pattern_chars_cons (a : Re.atom) (p : Re.pattern) (s : string) :
  Str.all_char (pattern_chars p) s = true ->
  Str.all_char (pattern_chars (a :: p)) s = true.
Proof.
  apply all_char_weaken. intros c Hc. unfold pattern_chars in *.
  cbn [existsb]. rewrite Hc. apply orb_true_r.
Qed.

Lemma match_here_chars (p : Re.pattern) :
  forall prev s n,
    Re.match_here p prev s = Some n ->
    Str.all_char (pattern_chars p) (substring 0 n s) = true.
Proof.
  induction p as [|a p IH]; intros prev s n H; cbn [Re.match_here] in H.
  - injection H as <-. rewrite substring_0_0. reflexivity.
  - destruct a as [cls lo hi| | |].
    + apply (rep_chars cls (pattern_chars (Re.Rep cls lo hi :: p))
               (Re.match_here p)) with (lo := lo) (hi := hi) (prev := prev);
        [| |exact H].
      * intros c Hc. unfold pattern_chars. cbn [existsb]. rewrite Hc.
        reflexivity.
      * intros prev' s' m Hm. apply pattern_chars_cons, (IH _ _ _ Hm).
    + destruct (Re.at_boundary prev s); [|discriminate].
      apply pattern_chars_cons, (IH _ _ _ H).
    + destruct (Re.at_bol prev); [|discriminate].
      apply pattern_chars_cons, (IH _ _ _ H).
    + destruct (Re.at_eol s); [|discriminate].
      apply pattern_chars_cons, (IH _ _ _ H).
Qed.

Lemma contains_tail (x : string) (c : ascii) (s : string) :
  Str.contains x s = true -> Str.contains x (String c s) = true.
Proof.
  intros H. cbn [Str.contains]. rewrite H. apply orb_true_r.
Qed.

Lemma findall_from_matches (p : Re.pattern) (s : string) :
  forall prev skip x,
    In x (Re.findall_from p prev skip s) ->
    Str.contains x s = true /\ Str.all_char (pattern_chars p) x = true.
Proof.
  induction s as [|c s IH]; intros prev skip x Hin;
    cbn [Re.findall_from] in Hin.
  - destruct skip; [|destruct Hin].
    destruct (Re.match_here p prev EmptyString); [|destruct Hin].
    destruct Hin as [<-|[]]. split; reflexivity.
  - destruct skip as [|j].
    + destruct (Re.match_here p prev (String c s)) as [n|] eqn:Hm.
      * destruct Hin as [<-|Hin].
        -- split; [|exact (match_here_chars _ _ _ _ Hm)].
           unfold Str.contains. fold Str.contains.
           rewrite substring_prefix. reflexivity.
        -- destruct (IH _ _ _ Hin) as [Hc Ha].
           split; [apply contains_tail; exact Hc|exact Ha].
      * destruct (IH _ _ _ Hin) as [Hc Ha].
        split; [apply contains_tail; exact Hc|exact Ha].
    + destruct (IH _ _ _ Hin) as [Hc Ha].
      split; [apply contains_tail; exact Hc|exact Ha].
Qed.

(** X22: every string that the email pattern or a phone pattern finds in a
    cell occurs in the cell; an email match is made of letters, digits and
    the characters . _ % + - @ | only, so it holds no white space, and a
    phone match is made of digits, hyphens, periods, white space,
    parentheses and plus signs only. *)
Theorem matches_come_from_the_cell (cell x : string) :
  (In x (Re.findall email_pattern cell) ->
   Str.contains x cell = true /\
   Str.all_char (fun c => alnum c || one_of "._%+-@|" c) x = true /\
   Str.any_char Str.isspace x = false) /\
  (In x (find_phones cell) ->
   Str.contains x cell = true /\
   Str.all_char (fun c => Str.is_digit c || Str.isspace c || one_of "-.()+" c)
                x = true).
Proof.
  split.
  - intros Hin. destruct (findall_from_matches _ _ _ _ _ Hin) as [Hc Ha].
    split; [exact Hc|].
    assert (Hchars : forall c, pattern_chars email_pattern c = true ->
                               (alnum c || one_of "._%+-@|" c)
                               && negb (Str.isspace c) = true).
    { assert (H : forall c, implb (pattern_chars email_pattern c)
                              ((alnum c || one_of "._%+-@|" c)
                               && negb (Str.isspace c)) = true)
        by (apply forall_ascii; vm_compute; reflexivity).
      intros c Hp. specialize (H c). rewrite Hp in H. exact H. }
    split.
    + apply (all_char_weaken (pattern_chars email_pattern)); [|exact Ha].
      intros c Hp. apply Hchars, andb_true_iff in Hp as [Hp _]. exact Hp.
    + destruct (Str.any_char Str.isspace x) eqn:Hs; [|reflexivity].
      apply (any_char_all_char Str.isspace (pattern_chars email_pattern))
        in Hs; [congruence|].
      intros c Hsp. destruct (pattern_chars email_pattern c) eqn:Hp;
        [|reflexivity].
      apply Hchars, andb_true_iff in Hp as [_ Hp]. rewrite Hsp in Hp.
      discriminate.
  - intros Hin. unfold find_phones in Hin.
    apply in_flat_map in Hin as (p & Hp & Hin).
    destruct (findall_from_matches _ _ _ _ _ Hin) as [Hc Ha].
    split; [exact Hc|].
    apply (all_char_weaken (pattern_chars p)); [|exact Ha].
    assert (H : forallb
                  (fun p => forallb
                     (fun n => implb (pattern_chars p (ascii_of_nat n))
                                 (Str.is_digit (ascii_of_nat n)
                                  || Str.isspace (ascii_of_nat n)
                                  || one_of "-.()+" (ascii_of_nat n)))
                     (seq 0 256)) phone_patterns = true)
      by (vm_compute; reflexivity).
    rewrite forallb_forall in H. specialize (H p Hp).
    intros c Hpc.
    pose proof (forall_ascii
                  (fun c => implb (pattern_chars p c)
                              (Str.is_digit c || Str.isspace c
                               || one_of "-.()+" c)) H c) as Hc'.
    cbv beta in Hc'. rewrite Hpc in Hc'. exact Hc'.
Qed.

Lemma matches_come_from_the_cell_witness :
  Str.contains "jane@x.com" "Lead jane@x.com" = true /\
  Str.any_char Str.isspace "jane@x.com" = false /\
  Str.contains "555-123-4567" "mobile 555-123-4567" = true.
Proof.
  destruct (matches_come_from_the_cell "Lead jane@x.com" "jane@x.com")
    as [Hmail _].
  destruct (matches_come_from_the_cell "mobile 555-123-4567" "555-123-4567")
    as [_ Hphone].
  destruct Hmail as (H1 & _ & H2); [vm_compute; left; reflexivity|].
  destruct Hphone as (H3 & _); [vm_compute; left; reflexivity|].
  auto.
Defined.
